(** * kube-shedder: the admission gate, its counter and its probes

    A shallow embedding of the Go package [shedder] (the Shedder and
    its constructor, the middleware, the probe handlers) and the
    properties of its admission decision, its in-flight accounting and
    its wire contract.

    Conventions of the embedding:
    - [int64] and [int] values are [Z]; the one arithmetic operation of
      the package, [atomic.Int64.Add], wraps around ([wrap64]);
    - a [*Shedder] is the record [Shedder]; the handler closures run in
      the monad [M], whose state holds the shedder the closure captured,
      the [http.ResponseWriter] of the request and the trace of calls
      that leave the closure;
    - a Go panic is the result [Panic]; [defer] is the combinator of the
      same name;
    - [net/http] and [net/textproto] are not part of the repository: the
      few operations the package calls are modelled after their
      documentation ([Header.Get], [Header.Set], [http.Error],
      [ResponseWriter.WriteHeader], [ResponseWriter.Write]). *)

From stdpp Require Import base numbers strings gmap list pretty.
From Stdlib Require Import ZArith Lia Bool Ascii.

Local Open Scope Z_scope.

(** ** Machine integers *)

Module Int64.

Definition min_int : Z := - 2 ^ 63.
Definition max_int : Z := 2 ^ 63 - 1.

Definition in_range (z : Z) : Prop := min_int <= z <= max_int.

(** Two's complement wrap-around of a 64-bit signed addition. *)
Definition wrap64 (z : Z) : Z := (z + 2 ^ 63) mod 2 ^ 64 - 2 ^ 63.

(** [atomic.Int64.Add]: the new value. *)
Definition add (x delta : Z) : Z := wrap64 (x + delta).

End Int64.

(** ** net/textproto and net/http headers *)

Module Textproto.

Definition byte_in (lo hi : string) (c : ascii) : bool :=
  match lo, hi with
  | String l _, String h _ =>
      (N.leb (N_of_ascii l) (N_of_ascii c) && N.leb (N_of_ascii c) (N_of_ascii h))%bool
  | _, _ => false
  end.

Definition is_lower (c : ascii) : bool := byte_in "a" "z" c.
Definition is_upper (c : ascii) : bool := byte_in "A" "Z" c.
Definition is_digit (c : ascii) : bool := byte_in "0" "9" c.

Fixpoint mem_ascii (c : ascii) (s : string) : bool :=
  match s with
  | EmptyString => false
  | String d s' => (Ascii.eqb c d || mem_ascii c s')%bool
  end.

(** The token bytes of RFC 7230. *)
Definition validHeaderFieldByte (c : ascii) : bool :=
  (is_lower c || is_upper c || is_digit c || mem_ascii c "!#$%&'*+-.^_`|~")%bool.

Definition to_upper (c : ascii) : ascii :=
  if is_lower c then ascii_of_N (N_of_ascii c - 32) else c.
Definition to_lower (c : ascii) : ascii :=
  if is_upper c then ascii_of_N (N_of_ascii c + 32) else c.

(** First letter and every letter after a dash in upper case, the
    others in lower case. *)
Fixpoint canonicalize (upper : bool) (s : string) : string :=
  match s with
  | EmptyString => EmptyString
  | String c s' =>
      let c' := if upper then to_upper c else to_lower c in
      String c' (canonicalize (Ascii.eqb c' "-") s')
  end.

Fixpoint all_valid (s : string) : bool :=
  match s with
  | EmptyString => true
  | String c s' => (validHeaderFieldByte c && all_valid s')%bool
  end.

(** [textproto.CanonicalMIMEHeaderKey]: a key with a byte that is not
    a token byte is returned unchanged. *)
Definition CanonicalMIMEHeaderKey (s : string) : string :=
  if all_valid s then canonicalize true s else s.

End Textproto.

(** [http.Header] is [map[string][]string]. *)
Abbreviation Header := (gmap string (list string)).

Module HeaderOps.

(** [Header.Get]: the first value under the canonical key, the empty
    string when there is none. *)
Definition Get (h : Header) (key : string) : string :=
  match h !! Textproto.CanonicalMIMEHeaderKey key with
  | Some (v :: _) => v
  | _ => EmptyString
  end.

(** [Header.Set]: replaces every value under the canonical key. *)
Definition Set_ (h : Header) (key value : string) : Header :=
  <[Textproto.CanonicalMIMEHeaderKey key := [value]]> h.

(** [Header.Del]. *)
Definition Del (h : Header) (key : string) : Header :=
  delete (Textproto.CanonicalMIMEHeaderKey key) h.

End HeaderOps.

(** The part of [*http.Request] the package and its callbacks look at. *)
Record Request := mkRequest {
  Method : string;
  URLPath : string;
  ReqHeader : Header
}.

(** ** Configuration and the Shedder *)

(** [type ShedReason int]. *)
Definition ShedReason := Z.

Definition ShedReasonHardLimit : ShedReason := 0.
Definition ShedReasonSoftLimit : ShedReason := 1.

Definition ShedReason_String (r : ShedReason) : string :=
  if r =? ShedReasonHardLimit then "hard_limit"
  else if r =? ShedReasonSoftLimit then "soft_limit"
  else "unknown".

(** How a call of a caller-supplied procedure ends. *)
Inductive Outcome :=
| Returned
| Panicked (v : string).

(** [type ShedDecider func(r *http.Request) bool]; the name
    [ShedDecider] is kept for the field of [Config]. *)
Definition ShedDeciderFunc := Request -> bool.

(** [func(r *http.Request, reason ShedReason)]: a procedure called for
    its effect, which the trace records; the function tells how the call
    ends. *)
Definition ShedNotifier := Request -> ShedReason -> Outcome.

Record HeaderMatcher := mkHeaderMatcher {
  Name : string;
  Value : string
}.

Record Config := mkConfig {
  HardLimit : Z;
  SoftLimit : Z;
  ShedDecider : option ShedDeciderFunc;   (* nil is None *)
  ShedHeader : option HeaderMatcher;     (* nil is None *)
  OnShed : option ShedNotifier           (* nil is None *)
}.

Record Shedder := mkShedder {
  hardLimit : Z;
  softLimit : Z;
  inflight : Z;
  shedDecider : option ShedDeciderFunc;
  onShed : option ShedNotifier
}.

(** Result of a call that may panic. *)
Inductive Result (A : Type) :=
| Ret (a : A)
| Panic (v : string).
Arguments Ret {A} a.
Arguments Panic {A} v.

(** The closure [New] builds for a header matcher. *)
Definition headerDecider (m : HeaderMatcher) : ShedDeciderFunc :=
  fun r => String.eqb (HeaderOps.Get (ReqHeader r) (Name m)) (Value m).

Definition New (cfg : Config) : Result Shedder :=
  if HardLimit cfg <=? 0 then Panic "shedder: HardLimit must be > 0"
  else
    Ret {| hardLimit := HardLimit cfg;
           softLimit := SoftLimit cfg;
           inflight := 0;
           shedDecider :=
             match ShedDecider cfg with
             | Some d => Some d
             | None =>
                 match ShedHeader cfg with
                 | Some m => Some (headerDecider m)
                 | None => None
                 end
             end;
           onShed := OnShed cfg |}.

Definition NewWithLimits (hard soft : Z) : Result Shedder :=
  New {| HardLimit := hard; SoftLimit := soft;
         ShedDecider := None; ShedHeader := None; OnShed := None |}.

Definition Inflight (s : Shedder) : Z := inflight s.

Definition IsOverloaded (s : Shedder) : bool := inflight s >? hardLimit s.

Definition IsSoftOverloaded (s : Shedder) : bool :=
  if softLimit s <=? 0 then false
  else
    let n := inflight s in
    ((n >? softLimit s) && (n <=? hardLimit s))%bool.

Definition set_inflight (s : Shedder) (n : Z) : Shedder :=
  {| hardLimit := hardLimit s; softLimit := softLimit s; inflight := n;
     shedDecider := shedDecider s; onShed := onShed s |}.

(** [increment]: [s.inflight.Add(1)], the shedder after the call and the
    value returned. *)
Definition increment (s : Shedder) : Shedder * Z :=
  let n := Int64.add (inflight s) 1 in (set_inflight s n, n).

(** [decrement]: [s.inflight.Add(-1)]. *)
Definition decrement (s : Shedder) : Shedder :=
  set_inflight s (Int64.add (inflight s) (-1)).

(** ** The handler monad *)

(** An [http.ResponseWriter] as the server and [httptest.ResponseRecorder]
    implement it: the header map stays writable, the status line and a
    snapshot of the headers are fixed by the first [WriteHeader]. *)
Record ResponseWriter := mkResponseWriter {
  rwHeader : Header;
  wroteHeader : bool;
  Code : Z;
  sentHeader : Header;
  Body : string
}.

(** [httptest.NewRecorder()]. *)
Definition NewRecorder : ResponseWriter :=
  {| rwHeader := ∅; wroteHeader := false; Code := 200;
     sentHeader := ∅; Body := "" |}.

(** Calls that leave a handler closure, in the order they happen. *)
Inductive Event :=
| EvAdd (delta result : Z)                  (* s.inflight.Add(delta) *)
| EvOnShed (r : Request) (reason : ShedReason)
| EvHeaderSet (key value : string)          (* w.Header().Set *)
| EvHeaderDel (key : string)                (* w.Header().Del *)
| EvWriteHeader (code : Z)                  (* w.WriteHeader *)
| EvWrite (data : string)                   (* w.Write *)
| EvServeHTTP (r : Request).                (* next.ServeHTTP(w, r) *)

Record State := mkState {
  st_shedder : Shedder;
  st_writer : ResponseWriter;
  st_trace : list Event
}.

Definition M (A : Type) : Type := State -> State * Result A.

Global Instance M_ret : MRet M := fun A a st => (st, Ret a).
Global Instance M_bind : MBind M := fun A B k m st =>
  match m st with
  | (st', Ret a) => k a st'
  | (st', Panic v) => (st', Panic v)
  end.

Definition emit (e : Event) : M unit := fun st =>
  ({| st_shedder := st_shedder st; st_writer := st_writer st;
      st_trace := st_trace st ++ [e] |}, Ret tt).

Definition get_shedder : M Shedder := fun st => (st, Ret (st_shedder st)).

Definition put_shedder (s : Shedder) : M unit := fun st =>
  ({| st_shedder := s; st_writer := st_writer st;
      st_trace := st_trace st |}, Ret tt).

Definition get_writer : M ResponseWriter := fun st => (st, Ret (st_writer st)).

Definition put_writer (w : ResponseWriter) : M unit := fun st =>
  ({| st_shedder := st_shedder st; st_writer := w;
      st_trace := st_trace st |}, Ret tt).

Definition panic {A} (v : string) : M A := fun st => (st, Panic v).

(** [defer d] followed by [body]: [d] runs when [body] is left, by a
    return or by a panic, and the panic goes on afterwards. *)
Definition defer {A} (d : M unit) (body : M A) : M A := fun st =>
  let '(st1, r) := body st in
  let '(st2, rd) := d st1 in
  (st2, match rd with Ret _ => r | Panic v => Panic v end).

(** *** The ResponseWriter operations *)

Definition set_rwHeader (w : ResponseWriter) (h : Header) : ResponseWriter :=
  {| rwHeader := h; wroteHeader := wroteHeader w; Code := Code w;
     sentHeader := sentHeader w; Body := Body w |}.

(** The first [WriteHeader] fixes the status and the headers sent; a
    later one changes nothing. *)
Definition writeHeader (w : ResponseWriter) (code : Z) : ResponseWriter :=
  if wroteHeader w then w
  else {| rwHeader := rwHeader w; wroteHeader := true; Code := code;
          sentHeader := rwHeader w; Body := Body w |}.

(** [Write] sends the header with status 200 first when nothing has
    sent it yet. *)
Definition write (w : ResponseWriter) (data : string) : ResponseWriter :=
  let w1 := writeHeader w 200 in
  {| rwHeader := rwHeader w1; wroteHeader := wroteHeader w1;
     Code := Code w1; sentHeader := sentHeader w1;
     Body := Body w1 +:+ data |}.

Definition Header_Set (key value : string) : M unit :=
  w ← get_writer;
  put_writer (set_rwHeader w (HeaderOps.Set_ (rwHeader w) key value));;
  emit (EvHeaderSet key value).

Definition Header_Del (key : string) : M unit :=
  w ← get_writer;
  put_writer (set_rwHeader w (HeaderOps.Del (rwHeader w) key));;
  emit (EvHeaderDel key).

Definition WriteHeader (code : Z) : M unit :=
  w ← get_writer;
  put_writer (writeHeader w code);;
  emit (EvWriteHeader code).

Definition Write (data : string) : M unit :=
  w ← get_writer;
  put_writer (write w data);;
  emit (EvWrite data).

Definition StatusOK : Z := 200.
Definition StatusServiceUnavailable : Z := 503.

Definition newline : string := String (ascii_of_nat 10) EmptyString.

(** [http.Error]. *)
Definition http_Error (error : string) (code : Z) : M unit :=
  Header_Del "Content-Length";;
  Header_Set "Content-Type" "text/plain; charset=utf-8";;
  Header_Set "X-Content-Type-Options" "nosniff";;
  WriteHeader code;;
  Write (error +:+ newline).

(** *** The caller-supplied procedures *)

(** An [http.Handler] from outside the package: it works on the
    ResponseWriter it is handed and returns or panics.  The counter
    [inflight] is an unexported field that only [increment] and
    [decrement] update, so such a handler has no access to it. *)
Definition Handler := ResponseWriter -> Request -> ResponseWriter * Outcome.

Definition of_outcome (o : Outcome) : M unit :=
  match o with
  | Returned => mret tt
  | Panicked v => panic v
  end.

Definition ServeHTTP (next : Handler) (r : Request) : M unit :=
  emit (EvServeHTTP r);;
  w ← get_writer;
  let '(w', o) := next w r in
  put_writer w';;
  of_outcome o.

Definition call_onShed (f : ShedNotifier) (r : Request) (reason : ShedReason) : M unit :=
  emit (EvOnShed r reason);;
  of_outcome (f r reason).

(** ** middleware.go *)

(** The calls of [increment] and [decrement] from a handler closure. *)
Definition m_increment : M Z :=
  s ← get_shedder;
  let '(s', n) := increment s in
  put_shedder s';;
  emit (EvAdd 1 n);;
  mret n.

Definition m_decrement : M unit :=
  s ← get_shedder;
  let s' := decrement s in
  put_shedder s';;
  emit (EvAdd (-1) (inflight s')).

(** [shed]: the notifier first when there is one, then the response. *)
Definition shed (r : Request) (reason : ShedReason) : M unit :=
  s ← get_shedder;
  match onShed s with
  | Some f => call_onShed f r reason
  | None => mret tt
  end;;
  Header_Set "Retry-After" "1";;
  Header_Set "X-Shed-Reason" (ShedReason_String reason);;
  http_Error "Service Unavailable: load shedding active" StatusServiceUnavailable.

(** The two [if] statements of [Middleware] end in [return] when they
    shed; every other path falls through to [next.ServeHTTP]. *)
Definition Middleware (next : Handler) (r : Request) : M unit :=
  current ← m_increment;
  defer m_decrement (
    s ← get_shedder;
    if current >? hardLimit s then
      shed r ShedReasonHardLimit
    else if ((softLimit s >? 0) && (current >? softLimit s))%bool then
      if match shedDecider s with Some d => d r | None => false end then
        shed r ShedReasonSoftLimit
      else
        ServeHTTP next r
    else
      ServeHTTP next r).

Definition MiddlewareFunc : Handler -> Request -> M unit :=
  fun next => Middleware next.

(** ** The probe handlers *)

Definition ReadyHandler (r : Request) : M unit :=
  s ← get_shedder;
  let inflight := Inflight s in
  if inflight >? hardLimit s then
    Header_Set "Content-Type" "text/plain; charset=utf-8";;
    WriteHeader StatusServiceUnavailable;;
    Write ("not ready: inflight=" +:+ pretty inflight +:+ ", hardLimit=" +:+ pretty (hardLimit s))
  else
    Header_Set "Content-Type" "text/plain; charset=utf-8";;
    WriteHeader StatusOK;;
    Write ("ready: inflight=" +:+ pretty inflight +:+ ", hardLimit=" +:+ pretty (hardLimit s)).

Definition HealthHandler (r : Request) : M unit :=
  Header_Set "Content-Type" "text/plain; charset=utf-8";;
  WriteHeader StatusOK;;
  Write "ok".

(** ** Observations on runs of the gate *)

Inductive Verdict :=
| Accept
| Reject (reason : ShedReason).

(** The branch [Middleware] takes for the value [current] its increment
    returned: the condition of middleware.go line 25, then those of
    lines 31 and 32. *)
Definition verdict (s : Shedder) (current : Z) (r : Request) : Verdict :=
  if current >? hardLimit s then Reject ShedReasonHardLimit
  else if ((softLimit s >? 0) && (current >? softLimit s))%bool then
    if match shedDecider s with Some d => d r | None => false end then
      Reject ShedReasonSoftLimit
    else Accept
  else Accept.

(** The requests handed to the downstream handler, oldest first. *)
Definition served (tr : list Event) : list Request :=
  omap (fun e => match e with EvServeHTTP r => Some r | _ => None end) tr.

(** The calls of the notifier. *)
Definition notified (tr : list Event) : list (Request * ShedReason) :=
  omap (fun e => match e with EvOnShed r x => Some (r, x) | _ => None end) tr.

(** The updates of the in-flight counter. *)
Definition adds (tr : list Event) : list Z :=
  omap (fun e => match e with EvAdd d _ => Some d | _ => None end) tr.

(** Calls that write a part of the response. *)
Definition is_response_write (e : Event) : bool :=
  match e with
  | EvHeaderSet _ _ | EvHeaderDel _ | EvWriteHeader _ | EvWrite _ => true
  | _ => false
  end.

(** The state in which the body of the gate starts: the counter has been
    incremented, the decrement is deferred. *)
Definition entered (st : State) : State := fst (m_increment st).

(** The count the admission decision is made against. *)
Definition admission_count (st : State) : Z := snd (increment (st_shedder st)).

(** Leaving the gate: the deferred decrement runs. *)
Definition released (out : State * Result unit) : State * Result unit :=
  (fst (m_decrement (fst out)), snd out).

(** The request is rejected with [reason]: the gate does what [shed]
    does with that reason, the downstream handler sees nothing. *)
Definition rejected (reason : ShedReason) (r : Request) (st : State)
    (out : State * Result unit) : Prop :=
  out = released (shed r reason (entered st)) /\
  served (st_trace (fst out)) = served (st_trace st).

(** The request is accepted: the downstream handler is called once, with
    the ResponseWriter of the request; what it leaves there and how it
    ends is what the caller of the gate gets; the notifier is not
    called. *)
Definition accepted (next : Handler) (r : Request) (st : State)
    (out : State * Result unit) : Prop :=
  served (st_trace (fst out)) = served (st_trace st) ++ [r] /\
  notified (st_trace (fst out)) = notified (st_trace st) /\
  st_writer (fst out) = fst (next (st_writer st) r) /\
  snd out = match snd (next (st_writer st) r) with
            | Returned => Ret tt
            | Panicked v => Panic v
            end.

(** The state after more calls have been recorded. *)
Definition record_events (st : State) (evs : list Event) : State :=
  {| st_shedder := st_shedder st; st_writer := st_writer st;
     st_trace := st_trace st ++ evs |}.

Definition with_writer (st : State) (w : ResponseWriter) : State :=
  {| st_shedder := st_shedder st; st_writer := w; st_trace := st_trace st |}.

Definition with_shedder (st : State) (s : Shedder) : State :=
  {| st_shedder := s; st_writer := st_writer st; st_trace := st_trace st |}.

(** The body of a rejection. *)
Definition shed_body : string :=
  "Service Unavailable: load shedding active" +:+ newline.

(** What [shed] leaves in the ResponseWriter once the notifier is done. *)
Definition shed_headers (reason : ShedReason) (h : Header) : Header :=
  HeaderOps.Set_
    (HeaderOps.Set_
       (HeaderOps.Del
          (HeaderOps.Set_ (HeaderOps.Set_ h "Retry-After" "1")
             "X-Shed-Reason" (ShedReason_String reason))
          "Content-Length")
       "Content-Type" "text/plain; charset=utf-8")
    "X-Content-Type-Options" "nosniff".

Definition shed_writer (reason : ShedReason) (w : ResponseWriter) : ResponseWriter :=
  write
    (writeHeader (set_rwHeader w (shed_headers reason (rwHeader w)))
       StatusServiceUnavailable)
    shed_body.

(** The calls [shed] makes on the ResponseWriter. *)
Definition shed_events (reason : ShedReason) : list Event :=
  [ EvHeaderSet "Retry-After" "1";
    EvHeaderSet "X-Shed-Reason" (ShedReason_String reason);
    EvHeaderDel "Content-Length";
    EvHeaderSet "Content-Type" "text/plain; charset=utf-8";
    EvHeaderSet "X-Content-Type-Options" "nosniff";
    EvWriteHeader StatusServiceUnavailable;
    EvWrite shed_body ].

(** The rejection response of the wire contract, as the client gets it:
    the status and the headers fixed by [WriteHeader], and the body. *)
Definition rejection_response (reason : ShedReason) (w0 w : ResponseWriter) : Prop :=
  wroteHeader w = true /\
  Code w = 503 /\
  sentHeader w !! "Retry-After" = Some ["1"%string] /\
  sentHeader w !! "X-Shed-Reason" = Some [ShedReason_String reason] /\
  sentHeader w !! "Content-Type" = Some ["text/plain; charset=utf-8"%string] /\
  Body w = Body w0 +:+ shed_body.

(** A request carries the header [name] with the value [value]: the
    header map has the canonical key and [value] is the first value
    under it. *)
Definition carries (r : Request) (name value : string) : Prop :=
  exists rest,
    ReqHeader r !! Textproto.CanonicalMIMEHeaderKey name = Some (value :: rest).

(** [Config] with another header matcher. *)
Definition with_ShedHeader (cfg : Config) (m : option HeaderMatcher) : Config :=
  {| HardLimit := HardLimit cfg; SoftLimit := SoftLimit cfg;
     ShedDecider := ShedDecider cfg; ShedHeader := m; OnShed := OnShed cfg |}.

(** The calls made between the increment and the deferred decrement. *)
Definition body_events (s : Shedder) (current : Z) (r : Request) : list Event :=
  match verdict s current r with
  | Accept => [EvServeHTTP r]
  | Reject reason =>
      match onShed s with
      | None => shed_events reason
      | Some f =>
          EvOnShed r reason ::
          match f r reason with
          | Returned => shed_events reason
          | Panicked _ => []
          end
      end
  end.

(** ** Concrete configurations, requests and handlers *)

Module Examples.

Definition get (h : Header) : Request :=
  {| Method := "GET"; URLPath := "/api/items"; ReqHeader := h |}.

Definition plain : Request := get ∅.
Definition low : Request := get {[ "X-Priority"%string := ["low"%string] ]}.
Definition high : Request := get {[ "X-Priority"%string := ["high"%string] ]}.

(** A handler that answers 200 and one that panics. *)
Definition ok_handler : Handler :=
  fun w _ => (write (writeHeader w StatusOK) "ok", Returned).
Definition panicking_handler : Handler :=
  fun w _ => (w, Panicked "test panic").

Definition priority : HeaderMatcher := {| Name := "X-Priority"; Value := "low" |}.
Definition empty_value : HeaderMatcher := {| Name := "X-Priority"; Value := "" |}.

Definition reject_all : ShedDeciderFunc := fun _ => true.

Definition quiet : ShedNotifier := fun _ _ => Returned.
Definition faulty : ShedNotifier := fun _ _ => Panicked "notifier".

Definition config (hard soft : Z) (d : option ShedDeciderFunc)
    (m : option HeaderMatcher) (f : option ShedNotifier) : Config :=
  {| HardLimit := hard; SoftLimit := soft; ShedDecider := d;
     ShedHeader := m; OnShed := f |}.

(** The shedder [New] returns for a valid configuration. *)
Definition built (cfg : Config) : Shedder :=
  match New cfg with
  | Ret s => s
  | Panic _ => mkShedder 0 0 0 None None
  end.

(** A request arrives at a shedder with [c] requests in flight. *)
Definition arrival (s : Shedder) (c : Z) : State :=
  {| st_shedder := set_inflight s c; st_writer := NewRecorder; st_trace := [] |}.

End Examples.

(** ** Requests in parallel *)

(** Several requests go through the same gate at once.  The only steps
    of a request that touch the shared counter are the increment it
    starts with and the deferred decrement it ends with; both are atomic,
    so a run of the server is an interleaving of these steps. *)
Module Interleaving.

Inductive Phase :=
| Arriving                  (* the gate has not been entered *)
| Handling (current : Z)    (* between the increment and the decrement *)
| Finished.                 (* the deferred decrement has run *)

Record Pool := mkPool {
  pool_shedder : Shedder;
  pool_phases : list Phase
}.

(** The next step of request [i]. *)
Definition step (i : nat) (p : Pool) : Pool :=
  match pool_phases p !! i with
  | Some Arriving =>
      let '(s', n) := increment (pool_shedder p) in
      {| pool_shedder := s';
         pool_phases := <[i := Handling n]> (pool_phases p) |}
  | Some (Handling _) =>
      {| pool_shedder := decrement (pool_shedder p);
         pool_phases := <[i := Finished]> (pool_phases p) |}
  | _ => p
  end.

(** A schedule names the request that moves next. *)
Definition run (schedule : list nat) (p : Pool) : Pool :=
  foldl (fun p i => step i p) p schedule.

(** The number of requests between their increment and their
    decrement. *)
Fixpoint handling (l : list Phase) : Z :=
  match l with
  | [] => 0
  | Handling _ :: l' => 1 + handling l'
  | _ :: l' => handling l'
  end.

Definition all_finished (l : list Phase) : bool :=
  forallb (fun ph => match ph with Finished => true | _ => false end) l.

End Interleaving.

(** ** The rest of the package and its callers *)

(** [ReadyHandlerFunc]: the [ServeHTTP] method of the handler
    [ReadyHandler] returns. *)
Definition ReadyHandlerFunc : Request -> M unit := ReadyHandler.

(** [r.Header.Set(key, value)], as the tests prepare their requests. *)
Definition Request_Header_Set (r : Request) (key value : string) : Request :=
  {| Method := Method r; URLPath := URLPath r;
     ReqHeader := HeaderOps.Set_ (ReqHeader r) key value |}.

(** [k] calls of [increment], [k] calls of [decrement]. *)
Definition increments (k : nat) (s : Shedder) : Shedder :=
  Nat.iter k (fun s => fst (increment s)) s.

Definition decrements (k : nat) (s : Shedder) : Shedder :=
  Nat.iter k decrement s.

(** A server that hands its requests to the gate one after the other,
    each with a ResponseWriter of its own; a panic of a handler ends
    that request only. *)
Definition serve_one (next : Handler) (st : State) (r : Request) : State :=
  fst (Middleware next r (with_writer st NewRecorder)).

Definition serve_all (next : Handler) (rs : list Request) (st : State) : State :=
  foldl (serve_one next) st rs.

(** The requests of an interleaving that are between their increment
    and their decrement and were not shed at the hard limit: the value
    their increment returned is at most [hard]. *)
Fixpoint within_limit (hard : Z) (l : list Interleaving.Phase) : Z :=
  match l with
  | [] => 0
  | Interleaving.Handling n :: l' =>
      (if n <=? hard then 1 else 0) + within_limit hard l'
  | _ :: l' => within_limit hard l'
  end.

(** What every step of an interleaving keeps, for [k] requests that
    found the counter at zero: the counter is the number of requests
    being handled, and at most [j] of them got a value of at most [j]
    from their increment. *)
Definition bounded_pool (k : nat) (hard : Z) (p : Interleaving.Pool) : Prop :=
  length (Interleaving.pool_phases p) = k /\
  inflight (Interleaving.pool_shedder p)
  = Interleaving.handling (Interleaving.pool_phases p) /\
  hardLimit (Interleaving.pool_shedder p) = hard /\
  forall j, 0 <= j -> within_limit j (Interleaving.pool_phases p) <= j.

(** The phases after [m] requests have entered the gate one after the
    other, none of them having left: the request that came as number
    [i + 1] got [i + 1] from its increment. *)
Definition burst (m : nat) : list Interleaving.Phase :=
  map (fun i => Interleaving.Handling (Z.of_nat i + 1)) (seq 0 m).

(** The demo server. *)
Module Demo.



End Demo.

(** * Properties *)

(** ** 64-bit arithmetic *)

Lemma wrap64_in_range z : Int64.in_range z -> Int64.wrap64 z = z.
Proof.
  unfold Int64.in_range, Int64.min_int, Int64.max_int, Int64.wrap64.
  intros H. rewrite Z.mod_small; lia.
Qed.

Lemma wrap64_range z : Int64.in_range (Int64.wrap64 z).
Proof.
  unfold Int64.in_range, Int64.min_int, Int64.max_int, Int64.wrap64.
  pose proof (Z.mod_pos_bound (z + 2 ^ 63) (2 ^ 64)). lia.
Qed.

(** An increment followed by a decrement is the identity on [int64],
    also across the wrap-around at the largest value. *)
Lemma add_1_add_m1 c : Int64.in_range c -> Int64.add (Int64.add c 1) (-1) = c.
Proof.
  intros H. unfold Int64.add, Int64.wrap64.
  replace ((c + 1 + 2 ^ 63) mod 2 ^ 64 - 2 ^ 63 + -1 + 2 ^ 63)
    with ((c + 1 + 2 ^ 63) mod 2 ^ 64 - 1) by lia.
  rewrite Zminus_mod_idemp_l.
  replace (c + 1 + 2 ^ 63 - 1) with (c + 2 ^ 63) by lia.
  unfold Int64.in_range, Int64.min_int, Int64.max_int in H.
  rewrite Z.mod_small; lia.
Qed.

(** Below the largest value the increment is the mathematical one. *)
Lemma add_1_no_overflow c :
  Int64.in_range c -> c < Int64.max_int -> Int64.add c 1 = c + 1.
Proof.
  intros H Hlt. unfold Int64.add. apply wrap64_in_range.
  unfold Int64.in_range, Int64.min_int, Int64.max_int in *. lia.
Qed.

(** ** Running the monad *)

Lemma bind_run {A B} (m : M A) (k : A -> M B) st :
  (m ≫= k) st = match m st with
                | (st', Ret a) => k a st'
                | (st', Panic v) => (st', Panic v)
                end.
Proof. reflexivity. Qed.

Lemma m_increment_run st :
  m_increment st = (entered st, Ret (admission_count st)).
Proof. reflexivity. Qed.

Lemma entered_eq st :
  entered st =
  {| st_shedder := set_inflight (st_shedder st) (admission_count st);
     st_writer := st_writer st;
     st_trace := st_trace st ++ [EvAdd 1 (admission_count st)] |}.
Proof. reflexivity. Qed.

Lemma m_decrement_run st :
  m_decrement st =
  ({| st_shedder := decrement (st_shedder st);
      st_writer := st_writer st;
      st_trace := st_trace st ++ [EvAdd (-1) (inflight (decrement (st_shedder st)))] |},
   Ret tt).
Proof. reflexivity. Qed.

Lemma shed_run r reason st :
  shed r reason st =
  match onShed (st_shedder st) with
  | None =>
      (record_events (with_writer st (shed_writer reason (st_writer st)))
         (shed_events reason), Ret tt)
  | Some f =>
      match f r reason with
      | Returned =>
          (record_events (with_writer st (shed_writer reason (st_writer st)))
             (EvOnShed r reason :: shed_events reason), Ret tt)
      | Panicked v => (record_events st [EvOnShed r reason], Panic v)
      end
  end.
Proof.
  destruct st as [s w tr].
  unfold shed. rewrite bind_run.
  change (get_shedder (mkState s w tr)) with (mkState s w tr, Ret s).
  unfold record_events, with_writer, st_shedder, st_writer, st_trace.
  destruct (onShed s) as [f|].
  - unfold call_onShed. rewrite !bind_run.
    change (emit (EvOnShed r reason) (mkState s w tr))
      with (mkState s w (tr ++ [EvOnShed r reason]), Ret tt).
    destruct (f r reason) as [|v]; [|reflexivity].
    unfold of_outcome, mret, M_ret.
    replace (tr ++ EvOnShed r reason :: shed_events reason)
      with ((((((((tr ++ [EvOnShed r reason]) ++ [EvHeaderSet "Retry-After" "1"])
                  ++ [EvHeaderSet "X-Shed-Reason" (ShedReason_String reason)])
                 ++ [EvHeaderDel "Content-Length"])
                ++ [EvHeaderSet "Content-Type" "text/plain; charset=utf-8"])
               ++ [EvHeaderSet "X-Content-Type-Options" "nosniff"])
              ++ [EvWriteHeader StatusServiceUnavailable])
             ++ [EvWrite shed_body])
      by (rewrite <- !app_assoc; reflexivity).
    reflexivity.
  - replace (tr ++ shed_events reason)
      with (((((((tr ++ [EvHeaderSet "Retry-After" "1"])
                  ++ [EvHeaderSet "X-Shed-Reason" (ShedReason_String reason)])
                 ++ [EvHeaderDel "Content-Length"])
                ++ [EvHeaderSet "Content-Type" "text/plain; charset=utf-8"])
               ++ [EvHeaderSet "X-Content-Type-Options" "nosniff"])
              ++ [EvWriteHeader StatusServiceUnavailable])
             ++ [EvWrite shed_body])
      by (rewrite <- !app_assoc; reflexivity).
    reflexivity.
Qed.

Lemma ServeHTTP_run next r st :
  ServeHTTP next r st =
  (record_events (with_writer st (fst (next (st_writer st) r))) [EvServeHTTP r],
   match snd (next (st_writer st) r) with
   | Returned => Ret tt
   | Panicked v => Panic v
   end).
Proof.
  destruct st as [s w tr]. unfold ServeHTTP. rewrite bind_run.
  change (emit (EvServeHTTP r) (mkState s w tr))
    with (mkState s w (tr ++ [EvServeHTTP r]), Ret tt).
  cbv beta iota. rewrite bind_run.
  change (get_writer (mkState s w (tr ++ [EvServeHTTP r])))
    with (mkState s w (tr ++ [EvServeHTTP r]), Ret w).
  cbv beta iota.
  unfold record_events, with_writer, st_shedder, st_writer, st_trace, fst, snd.
  destruct (next w r) as [w' [|v]]; reflexivity.
Qed.

(** The gate is the admission rule evaluated on the value the
    increment returned, between the increment and the deferred
    decrement. *)
Lemma Middleware_run next r st :
  Middleware next r st =
  released (match verdict (st_shedder st) (admission_count st) r with
            | Reject reason => shed r reason (entered st)
            | Accept => ServeHTTP next r (entered st)
            end).
Proof.
  unfold Middleware. rewrite bind_run, m_increment_run.
  unfold defer, released. rewrite bind_run.
  change (get_shedder (entered st)) with (entered st, Ret (st_shedder (entered st))).
  change (st_shedder (entered st))
    with (set_inflight (st_shedder st) (admission_count st)).
  unfold verdict.
  change (hardLimit (set_inflight (st_shedder st) (admission_count st)))
    with (hardLimit (st_shedder st)).
  change (softLimit (set_inflight (st_shedder st) (admission_count st)))
    with (softLimit (st_shedder st)).
  change (shedDecider (set_inflight (st_shedder st) (admission_count st)))
    with (shedDecider (st_shedder st)).
  destruct (admission_count st >? hardLimit (st_shedder st)).
  - destruct (shed r ShedReasonHardLimit (entered st)) as [st1 res].
    rewrite m_decrement_run. reflexivity.
  - destruct ((softLimit (st_shedder st) >? 0)
              && (admission_count st >? softLimit (st_shedder st)))%bool;
      [destruct (shedDecider (st_shedder st)) as [d|]; [destruct (d r)|]|];
      cbn [andb]; cbv beta iota;
      match goal with
      | |- context [let '(_, _) := ?m in _] => destruct m as [st1 res]
      end;
      rewrite m_decrement_run; reflexivity.
Qed.

Lemma Middleware_trace next r st :
  st_trace (fst (Middleware next r st)) =
  st_trace st
  ++ EvAdd 1 (admission_count st)
  :: body_events (st_shedder st) (admission_count st) r
  ++ [EvAdd (-1) (Int64.add (admission_count st) (-1))].
Proof.
  rewrite Middleware_run. unfold body_events.
  destruct (verdict (st_shedder st) (admission_count st) r) as [|reason].
  - rewrite ServeHTTP_run. unfold released. rewrite m_decrement_run.
    cbn [fst snd st_trace record_events with_writer st_shedder entered].
    rewrite entered_eq. cbn [st_trace st_shedder].
    rewrite <- !app_assoc. reflexivity.
  - rewrite shed_run. rewrite entered_eq.
    cbn [st_shedder set_inflight onShed].
    destruct (onShed (st_shedder st)) as [f|];
      [destruct (f r reason)|];
      unfold released; rewrite m_decrement_run;
      cbn [fst snd st_trace record_events with_writer st_shedder];
      rewrite <- !app_assoc; reflexivity.
Qed.

Lemma Middleware_shedder next r st :
  st_shedder (fst (Middleware next r st)) =
  set_inflight (st_shedder st) (Int64.add (admission_count st) (-1)).
Proof.
  rewrite Middleware_run.
  destruct (verdict (st_shedder st) (admission_count st) r) as [|reason].
  - rewrite ServeHTTP_run. reflexivity.
  - rewrite shed_run. rewrite entered_eq.
    cbn [st_shedder set_inflight onShed].
    destruct (onShed (st_shedder st)) as [f|];
      [destruct (f r reason)|]; reflexivity.
Qed.

Lemma Middleware_Accept next r st :
  verdict (st_shedder st) (admission_count st) r = Accept ->
  accepted next r st (Middleware next r st).
Proof.
  intros Hv. unfold accepted.
  rewrite Middleware_trace. unfold body_events. rewrite Hv.
  unfold served, notified. rewrite !omap_app. cbn [omap app].
  split; [reflexivity|]. split; [rewrite app_nil_r; reflexivity|].
  rewrite Middleware_run, Hv, ServeHTTP_run. split; reflexivity.
Qed.

Lemma Middleware_Reject next r st reason :
  verdict (st_shedder st) (admission_count st) r = Reject reason ->
  rejected reason r st (Middleware next r st).
Proof.
  intros Hv. unfold rejected. split.
  - rewrite Middleware_run, Hv. reflexivity.
  - rewrite Middleware_trace. unfold body_events. rewrite Hv.
    unfold served. rewrite !omap_app.
    destruct (onShed (st_shedder st)) as [f|];
      [destruct (f r reason)|]; cbn [omap app shed_events];
      rewrite app_nil_r; reflexivity.
Qed.

(** The three cases of [verdict], by the conditions on the count. *)
Lemma verdict_hard s n r :
  n > hardLimit s -> verdict s n r = Reject ShedReasonHardLimit.
Proof.
  intros H. unfold verdict.
  destruct (Z.gtb_spec n (hardLimit s)); [reflexivity | lia].
Qed.

Lemma verdict_soft s n r d :
  n <= hardLimit s -> softLimit s > 0 -> n > softLimit s ->
  shedDecider s = Some d -> d r = true ->
  verdict s n r = Reject ShedReasonSoftLimit.
Proof.
  intros Hh Hs Hn Hd Hr. unfold verdict. rewrite Hd, Hr.
  destruct (Z.gtb_spec n (hardLimit s)); [lia|].
  destruct (Z.gtb_spec (softLimit s) 0); [|lia].
  destruct (Z.gtb_spec n (softLimit s)); [|lia].
  reflexivity.
Qed.

Lemma verdict_accept s n r :
  n <= hardLimit s ->
  ~ (softLimit s > 0 /\ n > softLimit s /\
     exists d, shedDecider s = Some d /\ d r = true) ->
  verdict s n r = Accept.
Proof.
  intros Hh Hno. unfold verdict.
  destruct (Z.gtb_spec n (hardLimit s)); [lia|].
  destruct (Z.gtb_spec (softLimit s) 0); [|reflexivity].
  destruct (Z.gtb_spec n (softLimit s)); [|reflexivity].
  cbn [andb].
  destruct (shedDecider s) as [d|] eqn:Hd; [|reflexivity].
  destruct (d r) eqn:Hr; [|reflexivity].
  exfalso. apply Hno. repeat split; try lia. exists d. split; [reflexivity | exact Hr].
Qed.

(** ** The admission decision *)

(** C1. The gate decides on [n], the value its increment of the
    in-flight counter returned: above [hardLimit] the request is rejected
    with [ShedReasonHardLimit]; otherwise, with a positive [softLimit]
    below [n] and a decision policy that returns true for the request, it
    is rejected with [ShedReasonSoftLimit]; otherwise it is accepted and
    the downstream handler is called exactly once.  A rejected request
    never reaches the downstream handler. *)
Theorem Middleware_admission (next : Handler) (r : Request) (st : State) :
  let s := st_shedder st in
  let n := admission_count st in
  let out := Middleware next r st in
  n = Int64.add (inflight s) 1 /\
  (n > hardLimit s -> rejected ShedReasonHardLimit r st out) /\
  (n <= hardLimit s -> softLimit s > 0 -> n > softLimit s ->
   (exists d, shedDecider s = Some d /\ d r = true) ->
   rejected ShedReasonSoftLimit r st out) /\
  (n <= hardLimit s ->
   ~ (softLimit s > 0 /\ n > softLimit s /\
      exists d, shedDecider s = Some d /\ d r = true) ->
   accepted next r st out).
Proof.
  intros s n out. split; [reflexivity|]. split; [|split].
  - intros H. apply Middleware_Reject, verdict_hard, H.
  - intros Hh Hs Hn [d [Hd Hr]].
    apply Middleware_Reject. eapply verdict_soft; eassumption.
  - intros Hh Hno. apply Middleware_Accept, verdict_accept; assumption.
Qed.

Lemma Middleware_admission_witness :
  rejected ShedReasonHardLimit Examples.plain
    (Examples.arrival (Examples.built (Examples.config 2 0 None None None)) 2)
    (Middleware Examples.ok_handler Examples.plain
       (Examples.arrival (Examples.built (Examples.config 2 0 None None None)) 2)) /\
  rejected ShedReasonSoftLimit Examples.low
    (Examples.arrival
       (Examples.built (Examples.config 10 5 None (Some Examples.priority) None)) 6)
    (Middleware Examples.ok_handler Examples.low
       (Examples.arrival
          (Examples.built (Examples.config 10 5 None (Some Examples.priority) None)) 6)) /\
  accepted Examples.ok_handler Examples.high
    (Examples.arrival
       (Examples.built (Examples.config 10 5 None (Some Examples.priority) None)) 6)
    (Middleware Examples.ok_handler Examples.high
       (Examples.arrival
          (Examples.built (Examples.config 10 5 None (Some Examples.priority) None)) 6)).
Proof.
  split; [|split].
  - apply (Middleware_admission Examples.ok_handler Examples.plain
             (Examples.arrival (Examples.built (Examples.config 2 0 None None None)) 2)).
    vm_compute. reflexivity.
  - apply (Middleware_admission Examples.ok_handler Examples.low
             (Examples.arrival
                (Examples.built (Examples.config 10 5 None (Some Examples.priority) None)) 6)).
    + vm_compute. discriminate.
    + vm_compute. reflexivity.
    + vm_compute. reflexivity.
    + exists (headerDecider Examples.priority). split; [reflexivity | vm_compute; reflexivity].
  - apply (Middleware_admission Examples.ok_handler Examples.high
             (Examples.arrival
                (Examples.built (Examples.config 10 5 None (Some Examples.priority) None)) 6)).
    + vm_compute. discriminate.
    + intros (_ & _ & d & Hd & Hr).
      injection Hd as <-. vm_compute in Hr. discriminate.
Defined.

(** ** The in-flight accounting *)

Lemma adds_body_events s n r : adds (body_events s n r) = [].
Proof.
  unfold body_events.
  destruct (verdict s n r) as [|reason]; [reflexivity|].
  destruct (onShed s) as [f|]; [destruct (f r reason)|]; reflexivity.
Qed.

Lemma adds_app l1 l2 : adds (l1 ++ l2) = adds l1 ++ adds l2.
Proof. apply omap_app. Qed.

Lemma set_inflight_same s : set_inflight s (inflight s) = s.
Proof. destruct s; reflexivity. Qed.

(** C2. Whatever the gate does with a request (accept it, shed it at the
    hard or the soft limit) and however the downstream handler or the
    notifier ends (return or panic), the gate updates the in-flight
    counter exactly twice, by +1 and then by -1, and leaves the shedder
    as it found it: the counter is back at its value before the
    request. *)
Theorem Middleware_restores_inflight (next : Handler) (r : Request) (st : State) :
  Int64.in_range (inflight (st_shedder st)) ->
  let out := Middleware next r st in
  st_shedder (fst out) = st_shedder st /\
  inflight (st_shedder (fst out)) = inflight (st_shedder st) /\
  adds (st_trace (fst out)) = adds (st_trace st) ++ [1; -1].
Proof.
  intros Hr out. subst out.
  assert (Hs : st_shedder (fst (Middleware next r st)) = st_shedder st).
  { rewrite Middleware_shedder.
    change (admission_count st) with (Int64.add (inflight (st_shedder st)) 1).
    rewrite add_1_add_m1 by exact Hr. apply set_inflight_same. }
  split; [exact Hs|]. split; [rewrite Hs; reflexivity|].
  rewrite Middleware_trace.
  change (EvAdd 1 (admission_count st)
          :: body_events (st_shedder st) (admission_count st) r
          ++ [EvAdd (-1) (Int64.add (admission_count st) (-1))])
    with ([EvAdd 1 (admission_count st)]
          ++ body_events (st_shedder st) (admission_count st) r
          ++ [EvAdd (-1) (Int64.add (admission_count st) (-1))]).
  rewrite !adds_app, adds_body_events. reflexivity.
Qed.

Lemma Middleware_restores_inflight_witness :
  snd (Middleware Examples.panicking_handler Examples.plain
         (Examples.arrival (Examples.built (Examples.config 10 0 None None None)) 3))
  = Panic "test panic" /\
  inflight (st_shedder (fst
    (Middleware Examples.panicking_handler Examples.plain
       (Examples.arrival (Examples.built (Examples.config 10 0 None None None)) 3)))) = 3.
Proof.
  split; [vm_compute; reflexivity|].
  apply (Middleware_restores_inflight Examples.panicking_handler Examples.plain
           (Examples.arrival (Examples.built (Examples.config 10 0 None None None)) 3)).
  vm_compute. split; discriminate.
Defined.

(** ** Requests in parallel *)

Lemma wrap64_add_l x d : Int64.wrap64 (Int64.wrap64 x + d) = Int64.wrap64 (x + d).
Proof.
  unfold Int64.wrap64.
  replace ((x + 2 ^ 63) mod 2 ^ 64 - 2 ^ 63 + d + 2 ^ 63)
    with ((x + 2 ^ 63) mod 2 ^ 64 + d) by lia.
  rewrite Zplus_mod_idemp_l. f_equal. f_equal. lia.
Qed.

Lemma handling_enter l i n :
  l !! i = Some Interleaving.Arriving ->
  Interleaving.handling (<[i := Interleaving.Handling n]> l)
  = Interleaving.handling l + 1.
Proof.
  revert i. induction l as [|ph l IH]; intros [|i] H; try discriminate.
  - cbn in H. injection H as ->. cbn [Interleaving.handling list_insert]. 
    change (<[0%nat := Interleaving.Handling n]> (Interleaving.Arriving :: l))
      with (Interleaving.Handling n :: l).
    cbn [Interleaving.handling]. lia.
  - change (<[S i := Interleaving.Handling n]> (ph :: l))
      with (ph :: <[i := Interleaving.Handling n]> l).
    cbn in H. specialize (IH i H).
    destruct ph; cbn [Interleaving.handling]; lia.
Qed.

Lemma handling_leave l i n :
  l !! i = Some (Interleaving.Handling n) ->
  Interleaving.handling (<[i := Interleaving.Finished]> l)
  = Interleaving.handling l - 1.
Proof.
  revert i. induction l as [|ph l IH]; intros [|i] H; try discriminate.
  - cbn in H. injection H as ->.
    change (<[0%nat := Interleaving.Finished]> (Interleaving.Handling n :: l))
      with (Interleaving.Finished :: l).
    cbn [Interleaving.handling]. lia.
  - change (<[S i := Interleaving.Finished]> (ph :: l))
      with (ph :: <[i := Interleaving.Finished]> l).
    cbn in H. specialize (IH i H).
    destruct ph; cbn [Interleaving.handling]; lia.
Qed.

Lemma handling_all_finished l :
  Interleaving.all_finished l = true -> Interleaving.handling l = 0.
Proof.
  induction l as [|ph l IH]; [reflexivity|].
  unfold Interleaving.all_finished. cbn [forallb].
  destruct ph; try discriminate. cbn [andb Interleaving.handling]. exact IH.
Qed.

(** One step keeps the counter at the base value plus the number of
    requests being handled, in 64-bit arithmetic. *)
Lemma step_keeps_balance c0 i p :
  inflight (Interleaving.pool_shedder p)
  = Int64.wrap64 (c0 + Interleaving.handling (Interleaving.pool_phases p)) ->
  inflight (Interleaving.pool_shedder (Interleaving.step i p))
  = Int64.wrap64
      (c0 + Interleaving.handling (Interleaving.pool_phases (Interleaving.step i p))).
Proof.
  intros Hinv. unfold Interleaving.step.
  destruct (Interleaving.pool_phases p !! i) as [[|n|]|] eqn:Hi; try exact Hinv.
  - unfold increment. cbn [Interleaving.pool_shedder Interleaving.pool_phases
                           set_inflight inflight].
    rewrite (handling_enter _ _ _ Hi). unfold Int64.add. rewrite Hinv.
    rewrite wrap64_add_l. f_equal. lia.
  - unfold decrement. cbn [Interleaving.pool_shedder Interleaving.pool_phases
                           set_inflight inflight].
    rewrite (handling_leave _ _ _ Hi). unfold Int64.add. rewrite Hinv.
    rewrite wrap64_add_l. f_equal. lia.
Qed.

Lemma run_keeps_balance c0 schedule p :
  inflight (Interleaving.pool_shedder p)
  = Int64.wrap64 (c0 + Interleaving.handling (Interleaving.pool_phases p)) ->
  inflight (Interleaving.pool_shedder (Interleaving.run schedule p))
  = Int64.wrap64
      (c0 + Interleaving.handling
              (Interleaving.pool_phases (Interleaving.run schedule p))).
Proof.
  revert p. induction schedule as [|i schedule IH]; intros p Hinv; [exact Hinv|].
  unfold Interleaving.run. cbn [foldl].
  apply IH, step_keeps_balance, Hinv.
Qed.

(** X15. In every interleaving of the increments and deferred decrements
    of requests that all arrive at a counter of value [c0], the counter is
    [c0] plus the number of requests being handled, and it is [c0] again
    once every request has finished. *)
Lemma interleaved_gates_balance (s : Shedder) (k : nat) (schedule : list nat) :
  Int64.in_range (inflight s) ->
  let p := Interleaving.run schedule
             (Interleaving.mkPool s (replicate k Interleaving.Arriving)) in
  inflight (Interleaving.pool_shedder p)
  = Int64.wrap64 (inflight s + Interleaving.handling (Interleaving.pool_phases p)) /\
  (Interleaving.all_finished (Interleaving.pool_phases p) = true ->
   inflight (Interleaving.pool_shedder p) = inflight s).
Proof.
  intros Hr p.
  assert (H0 : Interleaving.handling (replicate k Interleaving.Arriving) = 0).
  { induction k as [|k IH]; [reflexivity | exact IH]. }
  assert (Hinv : inflight (Interleaving.pool_shedder p)
                 = Int64.wrap64
                     (inflight s + Interleaving.handling (Interleaving.pool_phases p))).
  { apply run_keeps_balance.
    cbn [Interleaving.pool_shedder Interleaving.pool_phases].
    rewrite H0, Z.add_0_r. symmetry. apply wrap64_in_range, Hr. }
  split; [exact Hinv|].
  intros Hfin. rewrite Hinv, (handling_all_finished _ Hfin), Z.add_0_r.
  apply wrap64_in_range, Hr.
Qed.

Lemma interleaved_gates_balance_example :
  let p := Interleaving.run [0; 1; 2; 1; 0; 2]%nat
             (Interleaving.mkPool (mkShedder 2 0 0 None None)
                (replicate 3 Interleaving.Arriving)) in
  Interleaving.pool_phases (Interleaving.run [0; 1; 2]%nat
     (Interleaving.mkPool (mkShedder 2 0 0 None None)
        (replicate 3 Interleaving.Arriving)))
  = [Interleaving.Handling 1; Interleaving.Handling 2; Interleaving.Handling 3] /\
  inflight (Interleaving.pool_shedder p) = 0.
Proof. vm_compute. split; reflexivity. Qed.

(** ** The overload queries and the readiness probe *)

Lemma Header_Set_run key value st :
  Header_Set key value st =
  (record_events
     (with_writer st
        (set_rwHeader (st_writer st)
           (HeaderOps.Set_ (rwHeader (st_writer st)) key value)))
     [EvHeaderSet key value], Ret tt).
Proof. destruct st; reflexivity. Qed.

Lemma WriteHeader_run code st :
  WriteHeader code st =
  (record_events (with_writer st (writeHeader (st_writer st) code))
     [EvWriteHeader code], Ret tt).
Proof. destruct st; reflexivity. Qed.

Lemma Write_run data st :
  Write data st =
  (record_events (with_writer st (write (st_writer st) data)) [EvWrite data],
   Ret tt).
Proof. destruct st; reflexivity. Qed.

(** What [ReadyHandler] answers: the status and the text. *)
Lemma ReadyHandler_run r st :
  let s := st_shedder st in
  let code := if IsOverloaded s then StatusServiceUnavailable else StatusOK in
  let text :=
    ((if IsOverloaded s then "not ready" else "ready")
     +:+ ": inflight=" +:+ pretty (inflight s)
     +:+ ", hardLimit=" +:+ pretty (hardLimit s))%string in
  let w := st_writer st in
  ReadyHandler r st =
  (record_events
     (with_writer st
        (write
           (writeHeader
              (set_rwHeader w
                 (HeaderOps.Set_ (rwHeader w) "Content-Type"
                    "text/plain; charset=utf-8"))
              code)
           text))
     [EvHeaderSet "Content-Type" "text/plain; charset=utf-8";
      EvWriteHeader code; EvWrite text],
   Ret tt).
Proof.
  destruct st as [s w tr]. cbv zeta.
  unfold ReadyHandler. rewrite bind_run.
  change (get_shedder (mkState s w tr)) with (mkState s w tr, Ret s).
  cbv beta iota zeta. unfold Inflight, IsOverloaded.
  cbn [st_shedder st_writer].
  destruct (inflight s >? hardLimit s);
    rewrite bind_run, Header_Set_run; cbv beta iota;
    rewrite bind_run, WriteHeader_run; cbv beta iota;
    rewrite Write_run;
    unfold record_events, with_writer; cbn [st_shedder st_writer st_trace];
    rewrite <- !app_assoc; reflexivity.
Qed.

Lemma Code_write_writeHeader w code data :
  wroteHeader w = false ->
  Code (write (writeHeader w code) data) = code.
Proof.
  intros H. unfold write, writeHeader. rewrite H.
  cbn [wroteHeader Code]. reflexivity.
Qed.

(** C3. [IsOverloaded] is true exactly when the in-flight count is
    strictly above [hardLimit] (so it is false at the limit); the
    readiness handler answers 200 exactly when [IsOverloaded] is false
    for the shedder as it is when the handler runs, and 503 otherwise.
    The handler keeps nothing: it leaves the shedder as it is, and when
    the count has changed to any value [c] before the next call, that
    call answers for [c]. *)
Theorem readiness_follows_IsOverloaded :
  (forall s, IsOverloaded s = true <-> inflight s > hardLimit s) /\
  (forall s, inflight s = hardLimit s -> IsOverloaded s = false) /\
  (forall r st,
     wroteHeader (st_writer st) = false ->
     let out := ReadyHandler r st in
     snd out = Ret tt /\
     st_shedder (fst out) = st_shedder st /\
     (Code (st_writer (fst out)) = 200 <-> IsOverloaded (st_shedder st) = false) /\
     (Code (st_writer (fst out)) = 503 <-> IsOverloaded (st_shedder st) = true)) /\
  (forall r st c w,
     wroteHeader w = false ->
     let st1 := fst (ReadyHandler r st) in
     let st2 := with_writer (with_shedder st1 (set_inflight (st_shedder st1) c)) w in
     Code (st_writer (fst (ReadyHandler r st2))) =
     if c >? hardLimit (st_shedder st) then 503 else 200).
Proof.
  split; [|split; [|split]].
  - intros s. unfold IsOverloaded.
    destruct (Z.gtb_spec (inflight s) (hardLimit s)); split; intros; try lia; congruence.
  - intros s H. unfold IsOverloaded.
    destruct (Z.gtb_spec (inflight s) (hardLimit s)); [lia | reflexivity].
  - intros r st Hw out. subst out. rewrite ReadyHandler_run.
    cbn [fst snd record_events with_writer st_shedder st_writer].
    split; [reflexivity|]. split; [reflexivity|].
    rewrite Code_write_writeHeader by exact Hw.
    destruct (IsOverloaded (st_shedder st));
      unfold StatusOK, StatusServiceUnavailable; split; split; intros; congruence || lia.
  - intros r st c w Hw st1 st2. subst st2 st1.
    rewrite (ReadyHandler_run r (with_writer _ w)).
    cbn [fst snd record_events with_writer with_shedder st_shedder st_writer].
    rewrite Code_write_writeHeader by exact Hw.
    rewrite ReadyHandler_run.
    cbn [fst snd record_events with_writer st_shedder].
    unfold IsOverloaded. cbn [set_inflight inflight hardLimit].
    destruct (c >? hardLimit (st_shedder st)); reflexivity.
Qed.

Lemma readiness_follows_IsOverloaded_witness :
  Code (st_writer (fst (ReadyHandler Examples.plain
    (Examples.arrival (Examples.built (Examples.config 2 0 None None None)) 2)))) = 200 /\
  Code (st_writer (fst (ReadyHandler Examples.plain
    (Examples.arrival (Examples.built (Examples.config 2 0 None None None)) 3)))) = 503.
Proof.
  split.
  - apply (proj1 (proj2 (proj2 readiness_follows_IsOverloaded))
             Examples.plain
             (Examples.arrival (Examples.built (Examples.config 2 0 None None None)) 2)
             eq_refl).
    apply (proj1 (proj2 readiness_follows_IsOverloaded)). reflexivity.
  - apply (proj1 (proj2 (proj2 readiness_follows_IsOverloaded))
             Examples.plain
             (Examples.arrival (Examples.built (Examples.config 2 0 None None None)) 3)
             eq_refl).
    apply (proj1 readiness_follows_IsOverloaded). vm_compute. reflexivity.
Defined.

(** C4. [IsSoftOverloaded] is true exactly when [softLimit] is positive,
    the in-flight count is strictly above it and at most [hardLimit]; it
    is false for every count when [softLimit] is zero or negative, and
    false above [hardLimit]: the two overload bands do not meet. *)
Theorem IsSoftOverloaded_band (s : Shedder) :
  (IsSoftOverloaded s = true <->
   softLimit s > 0 /\ inflight s > softLimit s /\ inflight s <= hardLimit s) /\
  (softLimit s <= 0 -> IsSoftOverloaded s = false) /\
  (inflight s > hardLimit s -> IsSoftOverloaded s = false) /\
  (IsSoftOverloaded s && IsOverloaded s)%bool = false.
Proof.
  unfold IsSoftOverloaded, IsOverloaded. cbv zeta.
  destruct (Z.leb_spec (softLimit s) 0);
    destruct (Z.gtb_spec (inflight s) (softLimit s));
    destruct (Z.leb_spec (inflight s) (hardLimit s));
    destruct (Z.gtb_spec (inflight s) (hardLimit s));
    cbn [andb]; repeat split; intros; try lia; try congruence.
Qed.

Lemma IsSoftOverloaded_band_witness :
  IsSoftOverloaded (mkShedder 10 5 6 None None) = true /\
  IsSoftOverloaded (mkShedder 10 0 10 None None) = false /\
  IsSoftOverloaded (mkShedder 10 5 11 None None) = false.
Proof.
  split; [|split].
  - apply (proj1 (IsSoftOverloaded_band (mkShedder 10 5 6 None None))).
    vm_compute. repeat split; discriminate.
  - apply (proj1 (proj2 (IsSoftOverloaded_band (mkShedder 10 0 10 None None)))).
    vm_compute. discriminate.
  - apply (proj1 (proj2 (proj2 (IsSoftOverloaded_band (mkShedder 10 5 11 None None))))).
    vm_compute. reflexivity.
Defined.

(** ** Construction *)

(** C5. [New] panics exactly when [HardLimit] is zero or negative; for
    every [HardLimit] from 1 on it returns a shedder with the configured
    limits and an in-flight counter of zero, whatever [SoftLimit] is. *)
Theorem New_panics_iff_no_ceiling (cfg : Config) :
  ((exists v, New cfg = Panic v) <-> HardLimit cfg <= 0) /\
  (HardLimit cfg >= 1 ->
   exists s, New cfg = Ret s /\ inflight s = 0 /\
             hardLimit s = HardLimit cfg /\ softLimit s = SoftLimit cfg /\
             onShed s = OnShed cfg).
Proof.
  unfold New. destruct (Z.leb_spec (HardLimit cfg) 0) as [H|H].
  - split.
    + split; [intros _; exact H | intros _; eexists; reflexivity].
    + intros Hge. lia.
  - split.
    + split; [intros [v Hv]; discriminate | lia].
    + intros _. eexists. repeat split.
Qed.

Lemma New_panics_iff_no_ceiling_witness :
  (exists v, New (Examples.config 0 5 None None None) = Panic v) /\
  (exists v, New (Examples.config (-1) 5 None None None) = Panic v) /\
  (exists s, New (Examples.config 1 (-5) None None None) = Ret s /\ inflight s = 0 /\
             hardLimit s = 1 /\ softLimit s = -5 /\ onShed s = None).
Proof.
  split; [|split].
  - apply (proj1 (New_panics_iff_no_ceiling (Examples.config 0 5 None None None))).
    vm_compute. discriminate.
  - apply (proj1 (New_panics_iff_no_ceiling (Examples.config (-1) 5 None None None))).
    vm_compute. discriminate.
  - apply (proj2 (New_panics_iff_no_ceiling (Examples.config 1 (-5) None None None))).
    vm_compute. discriminate.
Defined.

(** ** The decision policy *)

Lemma New_Ret_fields cfg s :
  New cfg = Ret s ->
  HardLimit cfg > 0 /\
  hardLimit s = HardLimit cfg /\ softLimit s = SoftLimit cfg /\
  inflight s = 0 /\ onShed s = OnShed cfg /\
  shedDecider s =
    match ShedDecider cfg with
    | Some d => Some d
    | None => option_map headerDecider (ShedHeader cfg)
    end.
Proof.
  unfold New. destruct (Z.leb_spec (HardLimit cfg) 0); [discriminate|].
  intros [= <-]. cbn [hardLimit softLimit inflight onShed shedDecider].
  repeat split; lia.
Qed.

Lemma verdict_soft_band s n r :
  n <= hardLimit s -> softLimit s > 0 -> n > softLimit s ->
  verdict s n r =
  if match shedDecider s with Some d => d r | None => false end
  then Reject ShedReasonSoftLimit else Accept.
Proof.
  intros Hh Hs Hn. unfold verdict.
  destruct (Z.gtb_spec n (hardLimit s)); [lia|].
  destruct (Z.gtb_spec (softLimit s) 0); [|lia].
  destruct (Z.gtb_spec n (softLimit s)); [|lia].
  reflexivity.
Qed.

(** C6. With a programmable decider and a header matcher both
    configured, the shedder holds the programmable decider; the header
    matcher plays no part (any other matcher, or none, gives the same
    shedder), and in soft overload a request is shed exactly when the
    programmable decider returns true for it. *)
Theorem ShedDecider_takes_precedence (cfg : Config) (d : ShedDeciderFunc)
    (m : HeaderMatcher) (s : Shedder) :
  ShedDecider cfg = Some d ->
  ShedHeader cfg = Some m ->
  New cfg = Ret s ->
  shedDecider s = Some d /\
  (forall m', New (with_ShedHeader cfg m') = Ret s) /\
  (forall next r st c,
     st_shedder st = set_inflight s c ->
     let n := admission_count st in
     let out := Middleware next r st in
     n <= hardLimit s -> softLimit s > 0 -> n > softLimit s ->
     (d r = true -> rejected ShedReasonSoftLimit r st out) /\
     (d r = false -> accepted next r st out)).
Proof.
  intros Hd Hm Hnew.
  assert (Hsd : shedDecider s = Some d).
  { destruct (New_Ret_fields _ _ Hnew) as (_ & _ & _ & _ & _ & ->).
    rewrite Hd. reflexivity. }
  split; [exact Hsd|]. split.
  - intros m'. rewrite <- Hnew. unfold New, with_ShedHeader.
    cbn [HardLimit SoftLimit ShedDecider ShedHeader OnShed].
    rewrite Hd. reflexivity.
  - intros next r st c Hst n out Hh Hs Hn. subst n out.
    assert (Hv := verdict_soft_band (st_shedder st) (admission_count st) r).
    rewrite Hst in Hv. cbn [set_inflight hardLimit softLimit shedDecider] in Hv.
    rewrite Hsd in Hv. specialize (Hv Hh Hs Hn). rewrite <- Hst in Hv.
    split; intros Hr; rewrite Hr in Hv.
    + apply Middleware_Reject, Hv.
    + apply Middleware_Accept, Hv.
Qed.

Lemma ShedDecider_takes_precedence_witness :
  rejected ShedReasonSoftLimit Examples.high
    (Examples.arrival
       (Examples.built
          (Examples.config 10 5 (Some Examples.reject_all) (Some Examples.priority) None)) 5)
    (Middleware Examples.ok_handler Examples.high
       (Examples.arrival
          (Examples.built
             (Examples.config 10 5 (Some Examples.reject_all) (Some Examples.priority) None)) 5)).
Proof.
  destruct (ShedDecider_takes_precedence
              (Examples.config 10 5 (Some Examples.reject_all) (Some Examples.priority) None)
              Examples.reject_all Examples.priority
              (Examples.built
                 (Examples.config 10 5 (Some Examples.reject_all)
                    (Some Examples.priority) None))
              eq_refl eq_refl eq_refl) as (_ & _ & H).
  destruct (H Examples.ok_handler Examples.high
              (Examples.arrival
                 (Examples.built
                    (Examples.config 10 5 (Some Examples.reject_all)
                       (Some Examples.priority) None)) 5)
              5 eq_refl) as [Hrej _].
  - vm_compute. discriminate.
  - vm_compute. reflexivity.
  - vm_compute. reflexivity.
  - exact (Hrej eq_refl).
Defined.

(** C7. With neither a programmable decider nor a header matcher
    configured, every request whose count after the increment is at most
    [hardLimit] is accepted and reaches the downstream handler, also
    with a positive [softLimit] below that count. *)
Theorem no_policy_never_soft_sheds (cfg : Config) (s : Shedder) :
  ShedDecider cfg = None ->
  ShedHeader cfg = None ->
  New cfg = Ret s ->
  forall next r st c,
    st_shedder st = set_inflight s c ->
    admission_count st <= hardLimit s ->
    accepted next r st (Middleware next r st).
Proof.
  intros Hd Hm Hnew next r st c Hst Hh.
  destruct (New_Ret_fields _ _ Hnew) as (_ & _ & _ & _ & _ & Hsd).
  rewrite Hd, Hm in Hsd. cbn [option_map] in Hsd.
  apply Middleware_Accept, verdict_accept.
  - rewrite Hst. exact Hh.
  - intros (_ & _ & d & Hd' & _). rewrite Hst in Hd'.
    cbn [set_inflight shedDecider] in Hd'. congruence.
Qed.

Lemma no_policy_never_soft_sheds_witness :
  softLimit (Examples.built (Examples.config 10 1 None None None)) > 0 /\
  admission_count
    (Examples.arrival (Examples.built (Examples.config 10 1 None None None)) 1)
  > softLimit (Examples.built (Examples.config 10 1 None None None)) /\
  accepted Examples.ok_handler Examples.low
    (Examples.arrival (Examples.built (Examples.config 10 1 None None None)) 1)
    (Middleware Examples.ok_handler Examples.low
       (Examples.arrival (Examples.built (Examples.config 10 1 None None None)) 1)).
Proof.
  split; [vm_compute; reflexivity|]. split; [vm_compute; reflexivity|].
  refine (no_policy_never_soft_sheds (Examples.config 10 1 None None None)
            (Examples.built (Examples.config 10 1 None None None))
            eq_refl eq_refl eq_refl Examples.ok_handler Examples.low
            (Examples.arrival (Examples.built (Examples.config 10 1 None None None)) 1)
            1 eq_refl _).
  vm_compute. discriminate.
Defined.

(** ** The rejection response and the notifier *)

Lemma canonical_Retry_After :
  Textproto.CanonicalMIMEHeaderKey "Retry-After" = "Retry-After"%string.
Proof. reflexivity. Qed.
Lemma canonical_X_Shed_Reason :
  Textproto.CanonicalMIMEHeaderKey "X-Shed-Reason" = "X-Shed-Reason"%string.
Proof. reflexivity. Qed.
Lemma canonical_Content_Length :
  Textproto.CanonicalMIMEHeaderKey "Content-Length" = "Content-Length"%string.
Proof. reflexivity. Qed.
Lemma canonical_Content_Type :
  Textproto.CanonicalMIMEHeaderKey "Content-Type" = "Content-Type"%string.
Proof. reflexivity. Qed.
Lemma canonical_X_Content_Type_Options :
  Textproto.CanonicalMIMEHeaderKey "X-Content-Type-Options"
  = "X-Content-Type-Options"%string.
Proof. reflexivity. Qed.

Lemma shed_headers_lookup reason (h : Header) :
  shed_headers reason h !! "Retry-After" = Some ["1"%string] /\
  shed_headers reason h !! "X-Shed-Reason" = Some [ShedReason_String reason] /\
  shed_headers reason h !! "Content-Type" = Some ["text/plain; charset=utf-8"%string].
Proof.
  unfold shed_headers, HeaderOps.Set_, HeaderOps.Del.
  rewrite canonical_Retry_After, canonical_X_Shed_Reason,
    canonical_Content_Length, canonical_Content_Type,
    canonical_X_Content_Type_Options.
  repeat split.
  - rewrite lookup_insert_ne by discriminate.
    rewrite lookup_insert_ne by discriminate.
    rewrite lookup_delete_ne by discriminate.
    rewrite lookup_insert_ne by discriminate.
    apply lookup_insert_eq.
  - rewrite lookup_insert_ne by discriminate.
    rewrite lookup_insert_ne by discriminate.
    rewrite lookup_delete_ne by discriminate.
    apply lookup_insert_eq.
  - rewrite lookup_insert_ne by discriminate.
    apply lookup_insert_eq.
Qed.

Lemma shed_writer_response reason w :
  wroteHeader w = false ->
  rejection_response reason w (shed_writer reason w).
Proof.
  intros Hw. unfold rejection_response, shed_writer, write, writeHeader, set_rwHeader.
  cbn [wroteHeader]. rewrite Hw.
  cbn [wroteHeader Code sentHeader Body rwHeader].
  destruct (shed_headers_lookup reason (rwHeader w)) as (H1 & H2 & H3).
  repeat split; assumption.
Qed.

Lemma verdict_reason s n r reason :
  verdict s n r = Reject reason ->
  (n > hardLimit s /\ reason = ShedReasonHardLimit) \/
  (n <= hardLimit s /\ reason = ShedReasonSoftLimit).
Proof.
  unfold verdict. destruct (Z.gtb_spec n (hardLimit s)).
  - intros [= <-]. left. split; [lia | reflexivity].
  - destruct (_ && _)%bool; [|discriminate].
    destruct (match shedDecider s with Some d => d r | None => false end);
      [|discriminate].
    intros [= <-]. right. split; [lia | reflexivity].
Qed.

(** C8. When the gate rejects a request, at the hard or at the soft
    limit, the response it writes has status 503, the header
    [Retry-After] with the value 1, the header [X-Shed-Reason] with
    [hard_limit] for a shed at the hard limit and [soft_limit] for one
    at the soft limit, a plain-text content type and the fixed one-line
    body.  The gate returns without that response only when the notifier
    panicked, and then it has written nothing. *)
Theorem rejection_wire_contract (next : Handler) (r : Request) (st : State)
    (reason : ShedReason) :
  wroteHeader (st_writer st) = false ->
  verdict (st_shedder st) (admission_count st) r = Reject reason ->
  let out := Middleware next r st in
  ShedReason_String reason =
    (if admission_count st >? hardLimit (st_shedder st)
     then "hard_limit" else "soft_limit")%string /\
  match snd out with
  | Ret _ => rejection_response reason (st_writer st) (st_writer (fst out))
  | Panic v =>
      st_writer (fst out) = st_writer st /\
      exists f, onShed (st_shedder st) = Some f /\ f r reason = Panicked v
  end.
Proof.
  intros Hw Hv out. subst out. split.
  - destruct (verdict_reason _ _ _ _ Hv) as [[Hn ->]|[Hn ->]];
      destruct (Z.gtb_spec (admission_count st) (hardLimit (st_shedder st)));
      try lia; reflexivity.
  - rewrite Middleware_run, Hv, shed_run, entered_eq.
    cbn [st_shedder set_inflight onShed].
    destruct (onShed (st_shedder st)) as [f|] eqn:Hf;
      [destruct (f r reason) eqn:Hfr|];
      unfold released; rewrite m_decrement_run;
      cbn [fst snd st_writer record_events with_writer].
    + apply shed_writer_response, Hw.
    + split; [reflexivity|]. exists f. split; [reflexivity | exact Hfr].
    + apply shed_writer_response, Hw.
Qed.

Lemma rejection_wire_contract_witness :
  rejection_response ShedReasonSoftLimit NewRecorder
    (st_writer (fst
       (Middleware Examples.ok_handler Examples.low
          (Examples.arrival
             (Examples.built
                (Examples.config 10 5 None (Some Examples.priority) (Some Examples.quiet)))
             6)))).
Proof.
  assert (Hv : verdict
                 (st_shedder
                    (Examples.arrival
                       (Examples.built
                          (Examples.config 10 5 None (Some Examples.priority)
                             (Some Examples.quiet))) 6))
                 (admission_count
                    (Examples.arrival
                       (Examples.built
                          (Examples.config 10 5 None (Some Examples.priority)
                             (Some Examples.quiet))) 6))
                 Examples.low
               = Reject ShedReasonSoftLimit)
    by (vm_compute; reflexivity).
  destruct (rejection_wire_contract Examples.ok_handler Examples.low
              (Examples.arrival
                 (Examples.built
                    (Examples.config 10 5 None (Some Examples.priority)
                       (Some Examples.quiet))) 6)
              ShedReasonSoftLimit eq_refl Hv) as [_ H].
  assert (Hr : snd (Middleware Examples.ok_handler Examples.low
                      (Examples.arrival
                         (Examples.built
                            (Examples.config 10 5 None (Some Examples.priority)
                               (Some Examples.quiet))) 6)) = Ret tt)
    by (vm_compute; reflexivity).
  rewrite Hr in H. exact H.
Defined.

Lemma notified_app l1 l2 : notified (l1 ++ l2) = notified l1 ++ notified l2.
Proof. apply omap_app. Qed.

Lemma notified_shed_events reason : notified (shed_events reason) = [].
Proof. reflexivity. Qed.

(** C9. With a notifier configured, a request the gate rejects makes
    exactly one call of the notifier, with that request and the reason
    of the rejection, and no call that writes a part of the response
    comes before it; a request the gate accepts makes no call of the
    notifier. *)
Theorem notifier_once_before_response (next : Handler) (r : Request)
    (st : State) (f : ShedNotifier) :
  onShed (st_shedder st) = Some f ->
  let out := Middleware next r st in
  let tr' := st_trace (fst out) in
  match verdict (st_shedder st) (admission_count st) r with
  | Reject reason =>
      notified tr' = notified (st_trace st) ++ [(r, reason)] /\
      exists pre post,
        tr' = st_trace st ++ pre ++ EvOnShed r reason :: post /\
        forallb (fun e => negb (is_response_write e)) pre = true /\
        notified pre = [] /\ notified post = []
  | Accept => notified tr' = notified (st_trace st)
  end.
Proof.
  intros Hf out tr'. subst tr' out. rewrite Middleware_trace.
  unfold body_events. rewrite Hf.
  destruct (verdict (st_shedder st) (admission_count st) r) as [|reason].
  - rewrite notified_app. cbn [notified omap app]. apply app_nil_r.
  - split.
    + rewrite notified_app.
      destruct (f r reason); cbn [notified omap app shed_events]; reflexivity.
    + exists [EvAdd 1 (admission_count st)].
      exists (match f r reason with
              | Returned => shed_events reason
              | Panicked _ => []
              end ++ [EvAdd (-1) (Int64.add (admission_count st) (-1))]).
      split; [reflexivity|]. split; [reflexivity|]. split; [reflexivity|].
      rewrite notified_app. destruct (f r reason); reflexivity.
Qed.

Lemma notifier_once_before_response_witness :
  notified (st_trace (fst
    (Middleware Examples.ok_handler Examples.plain
       (Examples.arrival
          (Examples.built (Examples.config 1 0 None None (Some Examples.quiet))) 1))))
  = [(Examples.plain, ShedReasonHardLimit)] /\
  notified (st_trace (fst
    (Middleware Examples.ok_handler Examples.plain
       (Examples.arrival
          (Examples.built (Examples.config 1 0 None None (Some Examples.quiet))) 0))))
  = [].
Proof.
  split.
  - pose proof (notifier_once_before_response Examples.ok_handler Examples.plain
                  (Examples.arrival
                     (Examples.built
                        (Examples.config 1 0 None None (Some Examples.quiet))) 1)
                  Examples.quiet eq_refl) as H.
    cbv zeta in H.
    replace (verdict
               (st_shedder
                  (Examples.arrival
                     (Examples.built
                        (Examples.config 1 0 None None (Some Examples.quiet))) 1))
               (admission_count
                  (Examples.arrival
                     (Examples.built
                        (Examples.config 1 0 None None (Some Examples.quiet))) 1))
               Examples.plain)
      with (Reject ShedReasonHardLimit) in H by (vm_compute; reflexivity).
    exact (proj1 H).
  - pose proof (notifier_once_before_response Examples.ok_handler Examples.plain
                  (Examples.arrival
                     (Examples.built
                        (Examples.config 1 0 None None (Some Examples.quiet))) 0)
                  Examples.quiet eq_refl) as H.
    cbv zeta in H.
    replace (verdict
               (st_shedder
                  (Examples.arrival
                     (Examples.built
                        (Examples.config 1 0 None None (Some Examples.quiet))) 0))
               (admission_count
                  (Examples.arrival
                     (Examples.built
                        (Examples.config 1 0 None None (Some Examples.quiet))) 0))
               Examples.plain)
      with Accept in H by (vm_compute; reflexivity).
    exact H.
Defined.

(** ** The header matcher *)

Lemma Get_nonempty (h : Header) key v :
  v <> EmptyString ->
  HeaderOps.Get h key = v <->
  exists rest, h !! Textproto.CanonicalMIMEHeaderKey key = Some (v :: rest).
Proof.
  intros Hv. unfold HeaderOps.Get.
  destruct (h !! Textproto.CanonicalMIMEHeaderKey key) as [[|x rest]|]; split.
  - intros H. congruence.
  - intros [rest H]. discriminate.
  - intros <-. exists rest. reflexivity.
  - intros [rest' H]. congruence.
  - intros H. congruence.
  - intros [rest H]. discriminate.
Qed.

(** C10, as the code has it.  With a header matcher and no programmable
    decider, the decision policy returns true exactly when [Header.Get]
    for the configured name (the first value under the canonical form
    of the name, the empty string when the request has no such header)
    is the configured value, compared byte for byte.  For a configured
    value that is not empty this is: the request carries the header with
    that value first; a request without the header is then never
    eligible. *)
Theorem header_matcher_policy (cfg : Config) (m : HeaderMatcher) (s : Shedder) :
  ShedDecider cfg = None ->
  ShedHeader cfg = Some m ->
  New cfg = Ret s ->
  exists d,
    shedDecider s = Some d /\
    forall r,
      (d r = true <-> HeaderOps.Get (ReqHeader r) (Name m) = Value m) /\
      (Value m <> EmptyString ->
       (d r = true <-> carries r (Name m) (Value m)) /\
       (ReqHeader r !! Textproto.CanonicalMIMEHeaderKey (Name m) = None ->
        d r = false)).
Proof.
  intros Hd Hm Hnew.
  destruct (New_Ret_fields _ _ Hnew) as (_ & _ & _ & _ & _ & Hsd).
  rewrite Hd, Hm in Hsd. cbn [option_map] in Hsd.
  exists (headerDecider m). split; [exact Hsd|].
  intros r. unfold headerDecider.
  assert (Hget : (HeaderOps.Get (ReqHeader r) (Name m) =? Value m)%string = true
                 <-> HeaderOps.Get (ReqHeader r) (Name m) = Value m)
    by apply String.eqb_eq.
  split; [exact Hget|].
  intros Hne. unfold carries. split.
  - rewrite Hget. apply Get_nonempty, Hne.
  - intros Hnone. apply not_true_is_false. rewrite Hget.
    rewrite (Get_nonempty _ _ _ Hne). intros [rest H]. congruence.
Qed.

Lemma header_matcher_policy_witness :
  exists d,
    shedDecider
      (Examples.built (Examples.config 10 5 None (Some Examples.priority) None))
    = Some d /\
    d Examples.low = true /\ d Examples.high = false /\ d Examples.plain = false.
Proof.
  destruct (header_matcher_policy
              (Examples.config 10 5 None (Some Examples.priority) None)
              Examples.priority
              (Examples.built (Examples.config 10 5 None (Some Examples.priority) None))
              eq_refl eq_refl eq_refl) as (d & Hd & H).
  exists d. split; [exact Hd|]. split; [|split].
  - apply (proj1 (H Examples.low)). vm_compute. reflexivity.
  - apply not_true_is_false. intros Ht.
    apply (proj1 (H Examples.high)) in Ht. vm_compute in Ht. discriminate.
  - apply (proj2 (H Examples.plain)).
    + vm_compute. discriminate.
    + vm_compute. reflexivity.
Defined.

(** The claim of C10 as worded fails for a matcher with the empty value:
    a request without the header is eligible, and the gate sheds it in
    soft overload. *)
Lemma header_matcher_empty_value_counterexample :
  shedDecider
    (Examples.built (Examples.config 10 5 None (Some Examples.empty_value) None))
  = Some (headerDecider Examples.empty_value) /\
  headerDecider Examples.empty_value Examples.plain = true /\
  ReqHeader Examples.plain
    !! Textproto.CanonicalMIMEHeaderKey (Name Examples.empty_value) = None /\
  ~ carries Examples.plain (Name Examples.empty_value) (Value Examples.empty_value) /\
  rejected ShedReasonSoftLimit Examples.plain
    (Examples.arrival
       (Examples.built (Examples.config 10 5 None (Some Examples.empty_value) None)) 5)
    (Middleware Examples.ok_handler Examples.plain
       (Examples.arrival
          (Examples.built (Examples.config 10 5 None (Some Examples.empty_value) None)) 5)).
Proof.
  split; [reflexivity|]. split; [vm_compute; reflexivity|].
  split; [vm_compute; reflexivity|]. split.
  - intros [rest H]. vm_compute in H. discriminate.
  - apply Middleware_Reject. vm_compute. reflexivity.
Qed.

(** * Further properties of the package *)

(** ** Reasons, the counter and the constructors *)

(** X1. The string of a reason tells the reason: [hard_limit] and
    [soft_limit] come from the two declared values only, and every other
    value of the integer type gives [unknown]. *)
Theorem ShedReason_String_classifies (x : ShedReason) :
  (ShedReason_String x = "hard_limit"%string <-> x = ShedReasonHardLimit) /\
  (ShedReason_String x = "soft_limit"%string <-> x = ShedReasonSoftLimit) /\
  (ShedReason_String x = "unknown"%string <->
   x <> ShedReasonHardLimit /\ x <> ShedReasonSoftLimit).
Proof.
  unfold ShedReason_String, ShedReasonHardLimit, ShedReasonSoftLimit.
  destruct (Z.eqb_spec x 0) as [->|H0]; [|destruct (Z.eqb_spec x 1) as [->|H1]];
    repeat split; intros; try reflexivity; try discriminate;
    intuition (congruence || lia).
Qed.

Lemma ShedReason_String_classifies_witness :
  ShedReason_String (-7) = "unknown"%string.
Proof.
  apply (proj2 (proj2 (ShedReason_String_classifies (-7)))).
  split; discriminate.
Defined.

(** X2. On a counter that holds an [int64], [decrement] undoes
    [increment]; [increment] returns the count it leaves in the shedder,
    which is the old count plus one below the largest [int64] and the
    smallest [int64] at it. *)
Theorem increment_decrement_inverse (s : Shedder) :
  Int64.in_range (inflight s) ->
  decrement (fst (increment s)) = s /\
  Inflight (fst (increment s)) = snd (increment s) /\
  Int64.in_range (snd (increment s)) /\
  (inflight s < Int64.max_int -> snd (increment s) = inflight s + 1) /\
  (inflight s = Int64.max_int -> snd (increment s) = Int64.min_int).
Proof.
  intros Hr. unfold increment, decrement, Inflight.
  cbn [fst snd set_inflight inflight hardLimit softLimit shedDecider onShed].
  split; [|split; [reflexivity|split; [|split]]].
  - rewrite add_1_add_m1 by exact Hr. destruct s; reflexivity.
  - apply wrap64_range.
  - intros Hlt. apply add_1_no_overflow; assumption.
  - intros ->. reflexivity.
Qed.

Lemma increment_decrement_inverse_witness :
  decrement (fst (increment (mkShedder 100 0 Int64.max_int None None)))
  = mkShedder 100 0 Int64.max_int None None /\
  snd (increment (mkShedder 100 0 Int64.max_int None None)) = Int64.min_int /\
  snd (increment (mkShedder 100 0 41 None None)) = 41 + 1.
Proof.
  split; [|split].
  - apply (increment_decrement_inverse (mkShedder 100 0 Int64.max_int None None)).
    vm_compute. split; discriminate.
  - apply (increment_decrement_inverse (mkShedder 100 0 Int64.max_int None None)).
    + vm_compute. split; discriminate.
    + reflexivity.
  - apply (increment_decrement_inverse (mkShedder 100 0 41 None None)).
    + vm_compute. split; discriminate.
    + vm_compute. reflexivity.
Defined.

Lemma increments_no_overflow k s :
  Int64.in_range (inflight s) ->
  inflight s + Z.of_nat k <= Int64.max_int ->
  increments k s = set_inflight s (inflight s + Z.of_nat k).
Proof.
  intros Hr. induction k as [|k IH]; intros Hk.
  - change (increments 0 s) with s. change (Z.of_nat 0) with 0.
    rewrite Z.add_0_r. symmetry. apply set_inflight_same.
  - unfold increments in *. rewrite Nat.iter_succ, IH by lia.
    unfold increment. cbn [fst set_inflight inflight hardLimit softLimit
                           shedDecider onShed].
    rewrite add_1_no_overflow.
    + f_equal. lia.
    + unfold Int64.in_range, Int64.min_int, Int64.max_int in *. lia.
    + lia.
Qed.

Lemma decrements_no_underflow k s :
  Int64.in_range (inflight s) ->
  Int64.min_int <= inflight s - Z.of_nat k ->
  decrements k s = set_inflight s (inflight s - Z.of_nat k).
Proof.
  intros Hr. induction k as [|k IH]; intros Hk.
  - change (decrements 0 s) with s. change (Z.of_nat 0) with 0.
    rewrite Z.sub_0_r. symmetry. apply set_inflight_same.
  - unfold decrements in *. rewrite Nat.iter_succ, IH by lia.
    unfold decrement. cbn [set_inflight inflight hardLimit softLimit
                           shedDecider onShed].
    unfold Int64.add. rewrite wrap64_in_range.
    + f_equal. lia.
    + unfold Int64.in_range, Int64.min_int, Int64.max_int in *. lia.
Qed.

(** X3. As long as the sum stays within [int64], [k] increments raise
    the count [Inflight] reports by exactly [k], and [k] decrements
    after them give the shedder back. *)
Theorem increments_then_decrements (k : nat) (s : Shedder) :
  Int64.in_range (inflight s) ->
  inflight s + Z.of_nat k <= Int64.max_int ->
  Inflight (increments k s) = inflight s + Z.of_nat k /\
  decrements k (increments k s) = s.
Proof.
  intros Hr Hk. rewrite increments_no_overflow by assumption.
  split; [reflexivity|].
  rewrite decrements_no_underflow.
  - cbn [set_inflight inflight hardLimit softLimit shedDecider onShed].
    replace (inflight s + Z.of_nat k - Z.of_nat k) with (inflight s) by lia.
    destruct s; reflexivity.
  - cbn [set_inflight inflight].
    unfold Int64.in_range, Int64.min_int, Int64.max_int in *. lia.
  - cbn [set_inflight inflight].
    unfold Int64.in_range, Int64.min_int, Int64.max_int in *. lia.
Qed.

Lemma increments_then_decrements_witness :
  Inflight (increments 3 (mkShedder 2 0 0 None None)) = 0 + Z.of_nat 3 /\
  decrements 3 (increments 3 (mkShedder 2 0 0 None None))
  = mkShedder 2 0 0 None None.
Proof.
  apply (increments_then_decrements 3 (mkShedder 2 0 0 None None)).
  - vm_compute. split; discriminate.
  - vm_compute. discriminate.
Defined.

Lemma notified_body_events_no_notifier s n r :
  onShed s = None -> notified (body_events s n r) = [].
Proof.
  intros H. unfold body_events. rewrite H.
  destruct (verdict s n r); reflexivity.
Qed.

Lemma Middleware_notified_no_notifier next r st :
  onShed (st_shedder st) = None ->
  notified (st_trace (fst (Middleware next r st))) = notified (st_trace st).
Proof.
  intros H. rewrite Middleware_trace.
  change (EvAdd 1 (admission_count st)
          :: body_events (st_shedder st) (admission_count st) r
          ++ [EvAdd (-1) (Int64.add (admission_count st) (-1))])
    with ([EvAdd 1 (admission_count st)]
          ++ body_events (st_shedder st) (admission_count st) r
          ++ [EvAdd (-1) (Int64.add (admission_count st) (-1))]).
  rewrite !notified_app, notified_body_events_no_notifier by exact H.
  cbn [notified omap app]. apply app_nil_r.
Qed.

(** X4. [NewWithLimits] panics exactly when the hard limit is zero or
    negative.  The shedder it returns otherwise starts at a count of
    zero, and its gate knows the hard limit only: a request is shed,
    with reason hard limit, when the count after the increment is above
    the hard limit, and accepted otherwise, whatever the soft limit is;
    no notifier is called. *)
Theorem NewWithLimits_gate (hard soft : Z) :
  (hard <= 0 -> exists v, NewWithLimits hard soft = Panic v) /\
  (hard > 0 ->
   exists s,
     NewWithLimits hard soft = Ret s /\
     hardLimit s = hard /\ softLimit s = soft /\ Inflight s = 0 /\
     forall next r st c,
       st_shedder st = set_inflight s c ->
       let out := Middleware next r st in
       notified (st_trace (fst out)) = notified (st_trace st) /\
       (admission_count st > hard -> rejected ShedReasonHardLimit r st out) /\
       (admission_count st <= hard -> accepted next r st out)).
Proof.
  unfold NewWithLimits, New. cbn [HardLimit SoftLimit ShedDecider ShedHeader OnShed].
  destruct (Z.leb_spec hard 0) as [H|H].
  - split; [intros _; eexists; reflexivity | lia].
  - split; [lia|]. intros _. eexists. split; [reflexivity|].
    unfold Inflight. cbn [hardLimit softLimit inflight].
    split; [reflexivity|]. split; [reflexivity|]. split; [reflexivity|].
    intros next r st c Hst. split; [|split].
    + apply Middleware_notified_no_notifier. rewrite Hst. reflexivity.
    + intros Hn. apply Middleware_Reject, verdict_hard. rewrite Hst. exact Hn.
    + intros Hn. apply Middleware_Accept, verdict_accept.
      * rewrite Hst. exact Hn.
      * rewrite Hst. intros (_ & _ & d & Hd & _). discriminate.
Qed.

Lemma NewWithLimits_gate_witness :
  (exists v, NewWithLimits 0 80 = Panic v) /\
  (exists s, NewWithLimits 100 80 = Ret s /\ hardLimit s = 100 /\ Inflight s = 0).
Proof.
  split.
  - apply (proj1 (NewWithLimits_gate 0 80)). vm_compute. discriminate.
  - destruct (proj2 (NewWithLimits_gate 100 80) eq_refl) as (s & Hs & Hh & _ & Hi & _).
    exists s. split; [exact Hs|]. split; [exact Hh | exact Hi].
Defined.

(** ** The header matcher and the requests *)

Lemma Get_Set_same (h : Header) key v : HeaderOps.Get (HeaderOps.Set_ h key v) key = v.
Proof.
  unfold HeaderOps.Get, HeaderOps.Set_. rewrite lookup_insert_eq. reflexivity.
Qed.

Lemma Get_Set_other (h : Header) key key' v :
  Textproto.CanonicalMIMEHeaderKey key <> Textproto.CanonicalMIMEHeaderKey key' ->
  HeaderOps.Get (HeaderOps.Set_ h key v) key' = HeaderOps.Get h key'.
Proof.
  intros H. unfold HeaderOps.Get, HeaderOps.Set_.
  rewrite lookup_insert_ne by exact H. reflexivity.
Qed.

(** X5. A request on which [Header.Set] has put the value [v] under the
    name of the matcher is eligible exactly when [v] is the configured
    value, whatever the request carried before; [Header.Set] under a
    name with another canonical form does not change the decision. *)
Theorem header_matcher_after_Set (m : HeaderMatcher) (r : Request) (v : string) :
  (headerDecider m (Request_Header_Set r (Name m) v) = true <-> v = Value m) /\
  (forall key,
     Textproto.CanonicalMIMEHeaderKey key
     <> Textproto.CanonicalMIMEHeaderKey (Name m) ->
     headerDecider m (Request_Header_Set r key v) = headerDecider m r).
Proof.
  unfold headerDecider, Request_Header_Set. cbn [ReqHeader]. split.
  - rewrite Get_Set_same. apply String.eqb_eq.
  - intros key Hk. rewrite Get_Set_other by exact Hk. reflexivity.
Qed.

Lemma header_matcher_after_Set_witness :
  headerDecider Examples.priority
    (Request_Header_Set Examples.high (Name Examples.priority) "low") = true /\
  headerDecider Examples.priority
    (Request_Header_Set Examples.low "X-Request-Id" "low")
  = headerDecider Examples.priority Examples.low.
Proof.
  split.
  - apply (proj1 (header_matcher_after_Set Examples.priority Examples.high "low")).
    reflexivity.
  - apply (proj2 (header_matcher_after_Set Examples.priority Examples.low "low")).
    vm_compute. discriminate.
Defined.

(** ** The gate and the overload queries *)

Lemma verdict_by_queries s n r :
  verdict s n r =
  if IsOverloaded (set_inflight s n) then Reject ShedReasonHardLimit
  else if IsSoftOverloaded (set_inflight s n) then
         if match shedDecider s with Some d => d r | None => false end
         then Reject ShedReasonSoftLimit else Accept
       else Accept.
Proof.
  unfold verdict, IsOverloaded, IsSoftOverloaded.
  cbn [set_inflight inflight hardLimit softLimit].
  destruct (Z.gtb_spec n (hardLimit s)); [reflexivity|].
  destruct (Z.leb_spec (softLimit s) 0);
    destruct (Z.gtb_spec (softLimit s) 0); try lia; cbn [andb]; [reflexivity|].
  destruct (Z.gtb_spec n (softLimit s)); cbn [andb]; [|reflexivity].
  destruct (Z.leb_spec n (hardLimit s)); [reflexivity | lia].
Qed.

(** X6. The gate sheds where the overload queries, asked while the
    request is counted, report overload: it rejects with the hard-limit
    reason when [IsOverloaded] is true, it lets the decision policy
    decide when [IsSoftOverloaded] is true, and it accepts when both are
    false. *)
Theorem gate_agrees_with_queries (next : Handler) (r : Request) (st : State) :
  let s1 := st_shedder (entered st) in
  let policy := match shedDecider (st_shedder st) with
                | Some d => d r
                | None => false
                end in
  let out := Middleware next r st in
  (IsOverloaded s1 = true -> rejected ShedReasonHardLimit r st out) /\
  (IsSoftOverloaded s1 = true -> policy = true ->
   rejected ShedReasonSoftLimit r st out) /\
  (IsSoftOverloaded s1 = true -> policy = false -> accepted next r st out) /\
  (IsOverloaded s1 = false -> IsSoftOverloaded s1 = false ->
   accepted next r st out).
Proof.
  intros s1 policy out.
  assert (Hv := verdict_by_queries (st_shedder st) (admission_count st) r).
  change (set_inflight (st_shedder st) (admission_count st)) with s1 in Hv.
  fold policy in Hv.
  assert (Hex : IsSoftOverloaded s1 = true -> IsOverloaded s1 = false).
  { intros Hs. destruct (IsSoftOverloaded_band s1) as (_ & _ & _ & Hd).
    rewrite Hs in Hd. exact Hd. }
  split; [|split; [|split]].
  - intros Ho. rewrite Ho in Hv. apply Middleware_Reject, Hv.
  - intros Hs Hp. rewrite (Hex Hs), Hs, Hp in Hv. apply Middleware_Reject, Hv.
  - intros Hs Hp. rewrite (Hex Hs), Hs, Hp in Hv. apply Middleware_Accept, Hv.
  - intros Ho Hs. rewrite Ho, Hs in Hv. apply Middleware_Accept, Hv.
Qed.

Lemma gate_agrees_with_queries_witness :
  rejected ShedReasonHardLimit Examples.plain
    (Examples.arrival (Examples.built (Examples.config 2 0 None None None)) 2)
    (Middleware Examples.ok_handler Examples.plain
       (Examples.arrival (Examples.built (Examples.config 2 0 None None None)) 2)).
Proof.
  apply (proj1 (gate_agrees_with_queries Examples.ok_handler Examples.plain
                  (Examples.arrival
                     (Examples.built (Examples.config 2 0 None None None)) 2))).
  vm_compute. reflexivity.
Defined.

(** X7. The gate sheds one request earlier than the readiness probe
    fails: with the count at or above the hard limit the next request is
    rejected with the hard-limit reason, while [ReadyHandler] answers
    200 up to and including a count equal to the hard limit and 503 only
    above it.  At a count equal to the hard limit the instance reports
    ready and sheds. *)
Theorem ready_at_limit_yet_shedding (next : Handler) (r : Request) (st : State) :
  wroteHeader (st_writer st) = false ->
  Int64.in_range (inflight (st_shedder st)) ->
  inflight (st_shedder st) < Int64.max_int ->
  (hardLimit (st_shedder st) <= inflight (st_shedder st) ->
   rejected ShedReasonHardLimit r st (Middleware next r st)) /\
  (inflight (st_shedder st) <= hardLimit (st_shedder st) ->
   Code (st_writer (fst (ReadyHandler r st))) = 200) /\
  (inflight (st_shedder st) > hardLimit (st_shedder st) ->
   Code (st_writer (fst (ReadyHandler r st))) = 503).
Proof.
  intros Hw Hr Hlt.
  assert (Hn : admission_count st = inflight (st_shedder st) + 1)
    by (apply add_1_no_overflow; assumption).
  rewrite ReadyHandler_run.
  cbn [fst record_events with_writer st_writer].
  rewrite Code_write_writeHeader by exact Hw.
  unfold IsOverloaded.
  destruct (Z.gtb_spec (inflight (st_shedder st)) (hardLimit (st_shedder st)));
    (split; [|split]); intros; try lia; try reflexivity;
    apply Middleware_Reject, verdict_hard; lia.
Qed.

Lemma ready_at_limit_yet_shedding_witness :
  rejected ShedReasonHardLimit Examples.plain
    (Examples.arrival (Examples.built (Examples.config 2 0 None None None)) 2)
    (Middleware Examples.ok_handler Examples.plain
       (Examples.arrival (Examples.built (Examples.config 2 0 None None None)) 2)) /\
  Code (st_writer (fst (ReadyHandler Examples.plain
    (Examples.arrival (Examples.built (Examples.config 2 0 None None None)) 2)))) = 200.
Proof.
  assert (Hr : Int64.in_range
                 (inflight (st_shedder
                    (Examples.arrival
                       (Examples.built (Examples.config 2 0 None None None)) 2))))
    by (vm_compute; split; discriminate).
  destruct (ready_at_limit_yet_shedding Examples.ok_handler Examples.plain
              (Examples.arrival (Examples.built (Examples.config 2 0 None None None)) 2)
              eq_refl Hr eq_refl) as (H1 & H2 & _).
  split.
  - apply H1. vm_compute. discriminate.
  - apply H2. vm_compute. discriminate.
Defined.

(** X8. With a soft limit that is not below the hard limit there is no
    soft band: the gate never sheds with the soft-limit reason, whatever
    the decision policy returns, and [IsSoftOverloaded] is false at
    every count. *)
Theorem soft_limit_not_below_hard_limit (next : Handler) (r : Request) (st : State) :
  hardLimit (st_shedder st) <= softLimit (st_shedder st) ->
  let out := Middleware next r st in
  (admission_count st > hardLimit (st_shedder st) ->
   rejected ShedReasonHardLimit r st out) /\
  (admission_count st <= hardLimit (st_shedder st) -> accepted next r st out) /\
  (forall c, IsSoftOverloaded (set_inflight (st_shedder st) c) = false).
Proof.
  intros Hle out. subst out. split; [|split].
  - intros Hn. apply Middleware_Reject, verdict_hard, Hn.
  - intros Hn. apply Middleware_Accept, verdict_accept; [exact Hn|].
    intros (_ & Hs & _). lia.
  - intros c. unfold IsSoftOverloaded.
    cbn [set_inflight inflight hardLimit softLimit].
    destruct (Z.leb_spec (softLimit (st_shedder st)) 0); [reflexivity|].
    destruct (Z.gtb_spec c (softLimit (st_shedder st))); [|reflexivity].
    destruct (Z.leb_spec c (hardLimit (st_shedder st))); [lia | reflexivity].
Qed.

Lemma soft_limit_not_below_hard_limit_witness :
  accepted Examples.ok_handler Examples.low
    (Examples.arrival
       (Examples.built (Examples.config 5 5 (Some Examples.reject_all) None None)) 4)
    (Middleware Examples.ok_handler Examples.low
       (Examples.arrival
          (Examples.built (Examples.config 5 5 (Some Examples.reject_all) None None)) 4)).
Proof.
  assert (Hle : hardLimit (st_shedder
                  (Examples.arrival
                     (Examples.built
                        (Examples.config 5 5 (Some Examples.reject_all) None None)) 4))
                <= softLimit (st_shedder
                  (Examples.arrival
                     (Examples.built
                        (Examples.config 5 5 (Some Examples.reject_all) None None)) 4)))
    by (vm_compute; discriminate).
  destruct (soft_limit_not_below_hard_limit Examples.ok_handler Examples.low
              (Examples.arrival
                 (Examples.built
                    (Examples.config 5 5 (Some Examples.reject_all) None None)) 4)
              Hle) as (_ & H & _).
  apply H. vm_compute. discriminate.
Defined.

(** ** The calls of one run *)

(** X9. When the notifier panics, the rejection it was called for ends
    in that panic: the gate makes the increment, the call of the
    notifier and the deferred decrement and nothing else, so the
    ResponseWriter is untouched (no 503 is written), the downstream
    handler is not called and the shedder is as before. *)
Theorem notifier_panic_ends_rejection (next : Handler) (r : Request) (st : State)
    (f : ShedNotifier) (reason : ShedReason) (v : string) :
  Int64.in_range (inflight (st_shedder st)) ->
  onShed (st_shedder st) = Some f ->
  verdict (st_shedder st) (admission_count st) r = Reject reason ->
  f r reason = Panicked v ->
  let out := Middleware next r st in
  snd out = Panic v /\
  st_writer (fst out) = st_writer st /\
  st_shedder (fst out) = st_shedder st /\
  st_trace (fst out) =
    st_trace st ++ [EvAdd 1 (admission_count st); EvOnShed r reason;
                    EvAdd (-1) (inflight (st_shedder st))].
Proof.
  intros Hr Hf Hv Hp out. subst out.
  assert (Hback : Int64.add (admission_count st) (-1) = inflight (st_shedder st))
    by (apply add_1_add_m1, Hr).
  split; [|split; [|split]].
  - rewrite Middleware_run, Hv, shed_run, entered_eq.
    cbn [st_shedder set_inflight onShed]. rewrite Hf, Hp. reflexivity.
  - rewrite Middleware_run, Hv, shed_run, entered_eq.
    cbn [st_shedder set_inflight onShed]. rewrite Hf, Hp. reflexivity.
  - rewrite Middleware_shedder, Hback. apply set_inflight_same.
  - rewrite Middleware_trace. unfold body_events. rewrite Hv, Hf, Hp, Hback.
    reflexivity.
Qed.

Lemma notifier_panic_ends_rejection_witness :
  snd (Middleware Examples.ok_handler Examples.plain
         (Examples.arrival
            (Examples.built (Examples.config 1 0 None None (Some Examples.faulty))) 1))
  = Panic "notifier" /\
  st_writer (fst (Middleware Examples.ok_handler Examples.plain
         (Examples.arrival
            (Examples.built (Examples.config 1 0 None None (Some Examples.faulty))) 1)))
  = NewRecorder.
Proof.
  assert (Hr : Int64.in_range
                 (inflight (st_shedder
                    (Examples.arrival
                       (Examples.built
                          (Examples.config 1 0 None None (Some Examples.faulty))) 1))))
    by (vm_compute; split; discriminate).
  assert (Hv : verdict
                 (st_shedder
                    (Examples.arrival
                       (Examples.built
                          (Examples.config 1 0 None None (Some Examples.faulty))) 1))
                 (admission_count
                    (Examples.arrival
                       (Examples.built
                          (Examples.config 1 0 None None (Some Examples.faulty))) 1))
                 Examples.plain
               = Reject ShedReasonHardLimit)
    by (vm_compute; reflexivity).
  destruct (notifier_panic_ends_rejection Examples.ok_handler Examples.plain
              (Examples.arrival
                 (Examples.built (Examples.config 1 0 None None (Some Examples.faulty))) 1)
              Examples.faulty ShedReasonHardLimit "notifier"
              Hr eq_refl Hv eq_refl) as (H1 & H2 & _).
  split; [exact H1 | exact H2].
Defined.

(** X10. For a request it accepts the gate makes three calls, in this
    order: the increment, the downstream handler, the decrement.  The
    request is counted for the whole of the downstream call, and the
    gate itself writes nothing to the ResponseWriter. *)
Theorem accepted_request_calls (next : Handler) (r : Request) (st : State) :
  verdict (st_shedder st) (admission_count st) r = Accept ->
  st_trace (fst (Middleware next r st)) =
  st_trace st ++ [EvAdd 1 (admission_count st); EvServeHTTP r;
                  EvAdd (-1) (Int64.add (admission_count st) (-1))].
Proof.
  intros Hv. rewrite Middleware_trace. unfold body_events. rewrite Hv.
  reflexivity.
Qed.

Lemma accepted_request_calls_witness :
  st_trace (fst (Middleware Examples.panicking_handler Examples.plain
    (Examples.arrival (Examples.built (Examples.config 10 0 None None None)) 3)))
  = [] ++ [EvAdd 1 (admission_count
             (Examples.arrival (Examples.built (Examples.config 10 0 None None None)) 3));
           EvServeHTTP Examples.plain;
           EvAdd (-1) (Int64.add (admission_count
             (Examples.arrival (Examples.built (Examples.config 10 0 None None None)) 3))
             (-1))].
Proof.
  apply (accepted_request_calls Examples.panicking_handler Examples.plain
           (Examples.arrival (Examples.built (Examples.config 10 0 None None None)) 3)).
  vm_compute. reflexivity.
Defined.

(** ** The probes *)

Lemma adds_record_events_writes st w evs :
  forallb is_response_write evs = true ->
  adds (st_trace (record_events (with_writer st w) evs)) = adds (st_trace st).
Proof.
  intros H. cbn [record_events with_writer st_trace]. rewrite adds_app.
  assert (Hz : adds evs = []).
  { induction evs as [|e evs IH]; [reflexivity|].
    cbn [forallb] in H. apply andb_prop in H as [He Hevs].
    destruct e; try discriminate; cbn [adds omap]; apply IH, Hevs. }
  rewrite Hz. apply app_nil_r.
Qed.

Lemma HealthHandler_run r st :
  HealthHandler r st =
  (record_events
     (with_writer st
        (write
           (writeHeader
              (set_rwHeader (st_writer st)
                 (HeaderOps.Set_ (rwHeader (st_writer st)) "Content-Type"
                    "text/plain; charset=utf-8"))
              StatusOK)
           "ok"))
     [EvHeaderSet "Content-Type" "text/plain; charset=utf-8";
      EvWriteHeader StatusOK; EvWrite "ok"],
   Ret tt).
Proof.
  destruct st as [s w tr]. unfold HealthHandler.
  rewrite bind_run, Header_Set_run; cbv beta iota.
  rewrite bind_run, WriteHeader_run; cbv beta iota.
  rewrite Write_run.
  unfold record_events, with_writer; cbn [st_shedder st_writer st_trace].
  rewrite <- !app_assoc. reflexivity.
Qed.

Lemma sent_Content_Type w code data :
  wroteHeader w = false ->
  sentHeader
    (write
       (writeHeader
          (set_rwHeader w
             (HeaderOps.Set_ (rwHeader w) "Content-Type" "text/plain; charset=utf-8"))
          code)
       data)
  !! "Content-Type" = Some ["text/plain; charset=utf-8"%string] /\
  Body
    (write
       (writeHeader
          (set_rwHeader w
             (HeaderOps.Set_ (rwHeader w) "Content-Type" "text/plain; charset=utf-8"))
          code)
       data)
  = Body w +:+ data.
Proof.
  intros Hw. unfold write, writeHeader, set_rwHeader.
  cbn [wroteHeader]. rewrite Hw.
  cbn [wroteHeader Code sentHeader Body rwHeader].
  split; [|reflexivity].
  unfold HeaderOps.Set_. rewrite canonical_Content_Type. apply lookup_insert_eq.
Qed.

(** X11. The liveness handler does not look at the load: for every
    shedder, overloaded or not, and every request it answers 200 with
    the plain-text body [ok], returns normally, and does not update the
    in-flight counter. *)
Theorem HealthHandler_always_ok (r : Request) (st : State) :
  wroteHeader (st_writer st) = false ->
  let out := HealthHandler r st in
  snd out = Ret tt /\
  Code (st_writer (fst out)) = 200 /\
  sentHeader (st_writer (fst out)) !! "Content-Type"
  = Some ["text/plain; charset=utf-8"%string] /\
  Body (st_writer (fst out)) = Body (st_writer st) +:+ "ok" /\
  st_shedder (fst out) = st_shedder st /\
  adds (st_trace (fst out)) = adds (st_trace st).
Proof.
  intros Hw out. subst out. rewrite HealthHandler_run.
  cbn [fst snd]. split; [reflexivity|]. split; [|split; [|split; [|split]]].
  - cbn [record_events with_writer st_writer].
    apply Code_write_writeHeader, Hw.
  - cbn [record_events with_writer st_writer].
    apply sent_Content_Type, Hw.
  - cbn [record_events with_writer st_writer].
    apply sent_Content_Type, Hw.
  - reflexivity.
  - apply adds_record_events_writes. reflexivity.
Qed.

Lemma HealthHandler_always_ok_witness :
  IsOverloaded (st_shedder
    (Examples.arrival (Examples.built (Examples.config 2 0 None None None)) 3)) = true /\
  Code (st_writer (fst (HealthHandler Examples.plain
    (Examples.arrival (Examples.built (Examples.config 2 0 None None None)) 3)))) = 200.
Proof.
  split; [vm_compute; reflexivity|].
  apply (HealthHandler_always_ok Examples.plain
           (Examples.arrival (Examples.built (Examples.config 2 0 None None None)) 3)).
  reflexivity.
Defined.

(** X12. The readiness handler, also through [ReadyHandlerFunc], sends
    a plain-text response whose body starts with [ready] or [not ready]
    by [IsOverloaded] and gives the in-flight count and the hard limit
    in decimal; it returns normally and does not update the counter. *)
Theorem ReadyHandler_response (r : Request) (st : State) :
  wroteHeader (st_writer st) = false ->
  let s := st_shedder st in
  let out := ReadyHandlerFunc r st in
  out = ReadyHandler r st /\
  snd out = Ret tt /\
  sentHeader (st_writer (fst out)) !! "Content-Type"
  = Some ["text/plain; charset=utf-8"%string] /\
  Body (st_writer (fst out)) =
    Body (st_writer st)
    +:+ ((if IsOverloaded s then "not ready" else "ready")
         +:+ ": inflight=" +:+ pretty (Inflight s)
         +:+ ", hardLimit=" +:+ pretty (hardLimit s)) /\
  adds (st_trace (fst out)) = adds (st_trace st).
Proof.
  intros Hw s out. subst out s. unfold ReadyHandlerFunc.
  split; [reflexivity|]. rewrite ReadyHandler_run.
  cbn [fst snd]. split; [reflexivity|]. split; [|split].
  - cbn [record_events with_writer st_writer]. apply sent_Content_Type, Hw.
  - cbn [record_events with_writer st_writer]. apply sent_Content_Type, Hw.
  - apply adds_record_events_writes. reflexivity.
Qed.

Lemma ReadyHandler_response_witness :
  Body (st_writer (fst (ReadyHandlerFunc Examples.plain
    (Examples.arrival (Examples.built (Examples.config 2 0 None None None)) 3))))
  = "not ready: inflight=3, hardLimit=2"%string.
Proof.
  destruct (ReadyHandler_response Examples.plain
              (Examples.arrival (Examples.built (Examples.config 2 0 None None None)) 3)
              eq_refl) as (_ & _ & _ & H & _).
  rewrite H. vm_compute. reflexivity.
Defined.




(** ** Requests one after the other *)

Lemma served_app l1 l2 : served (l1 ++ l2) = served l1 ++ served l2.
Proof. apply omap_app. Qed.

Lemma verdict_first_request s r :
  inflight s = 0 -> hardLimit s > 0 -> verdict s (snd (increment s)) r = Accept.
Proof.
  intros Hc Hh. unfold increment. cbn [snd]. rewrite Hc.
  change (Int64.add 0 1) with 1.
  apply verdict_accept; [lia|]. intros (Hs & Hn & _). lia.
Qed.

Lemma serve_one_idle next st r :
  inflight (st_shedder st) = 0 ->
  hardLimit (st_shedder st) > 0 ->
  st_shedder (serve_one next st r) = st_shedder st /\
  served (st_trace (serve_one next st r)) = served (st_trace st) ++ [r] /\
  notified (st_trace (serve_one next st r)) = notified (st_trace st).
Proof.
  intros Hc Hh. unfold serve_one.
  assert (Hv : verdict (st_shedder (with_writer st NewRecorder))
                 (admission_count (with_writer st NewRecorder)) r = Accept)
    by (apply verdict_first_request; assumption).
  destruct (Middleware_Accept next r _ Hv) as (Hs & Hn & _).
  split; [|split; [exact Hs | exact Hn]].
  rewrite Middleware_shedder.
  change (admission_count (with_writer st NewRecorder))
    with (Int64.add (inflight (st_shedder st)) 1).
  cbn [with_writer st_shedder]. rewrite Hc.
  change (Int64.add (Int64.add 0 1) (-1)) with 0. rewrite <- Hc.
  apply set_inflight_same.
Qed.

Lemma serve_all_idle next rs :
  forall st,
    inflight (st_shedder st) = 0 ->
    hardLimit (st_shedder st) > 0 ->
    st_shedder (serve_all next rs st) = st_shedder st /\
    served (st_trace (serve_all next rs st)) = served (st_trace st) ++ rs /\
    notified (st_trace (serve_all next rs st)) = notified (st_trace st).
Proof.
  induction rs as [|r rs IH]; intros st Hc Hh.
  - cbn [serve_all foldl]. rewrite app_nil_r. repeat split.
  - destruct (serve_one_idle next st r Hc Hh) as (Hs1 & Hv1 & Hn1).
    unfold serve_all in *. cbn [foldl].
    destruct (IH (serve_one next st r)) as (Hs & Hv & Hn).
    + rewrite Hs1. exact Hc.
    + rewrite Hs1. exact Hh.
    + split; [rewrite Hs; exact Hs1|].
      split; [rewrite Hv, Hv1, <- app_assoc; reflexivity|].
      rewrite Hn. exact Hn1.
Qed.

(** X14. A shedder as [New] returns it, given its requests one at a
    time, never sheds: whatever the limits, the decision policy and the
    downstream handler (which may panic), every request reaches the
    downstream handler, in the order of arrival, the notifier is never
    called and the shedder is left as it was built. *)
Theorem sequential_requests_are_all_served (cfg : Config) (s : Shedder)
    (next : Handler) (rs : list Request) :
  New cfg = Ret s ->
  let st := serve_all next rs (mkState s NewRecorder []) in
  served (st_trace st) = rs /\
  notified (st_trace st) = [] /\
  st_shedder st = s.
Proof.
  intros Hnew st. subst st.
  destruct (New_Ret_fields _ _ Hnew) as (Hpos & Hh & _ & Hc & _).
  destruct (serve_all_idle next rs (mkState s NewRecorder [])) as (Hs & Hv & Hn).
  - exact Hc.
  - cbn [st_shedder]. lia.
  - split; [exact Hv|]. split; [exact Hn | exact Hs].
Qed.

Lemma sequential_requests_are_all_served_witness :
  served (st_trace
    (serve_all Examples.panicking_handler
       [Examples.low; Examples.high; Examples.low]
       (mkState
          (Examples.built
             (Examples.config 1 1 (Some Examples.reject_all) None (Some Examples.quiet)))
          NewRecorder [])))
  = [Examples.low; Examples.high; Examples.low].
Proof.
  apply (sequential_requests_are_all_served
           (Examples.config 1 1 (Some Examples.reject_all) None (Some Examples.quiet))
           (Examples.built
              (Examples.config 1 1 (Some Examples.reject_all) None (Some Examples.quiet)))
           Examples.panicking_handler [Examples.low; Examples.high; Examples.low]
           eq_refl).
Defined.

(** ** Requests in parallel: the bound *)

Lemma interleaved_gates_balance_witness :
  inflight (Interleaving.pool_shedder
    (Interleaving.run [0; 1; 2; 1; 0; 2]%nat
       (Interleaving.mkPool (mkShedder 2 0 5 None None)
          (replicate 3 Interleaving.Arriving)))) = 5.
Proof.
  apply (interleaved_gates_balance (mkShedder 2 0 5 None None) 3
           [0; 1; 2; 1; 0; 2]%nat).
  - vm_compute. split; discriminate.
  - vm_compute. reflexivity.
Defined.

Lemma handling_bounds l :
  0 <= Interleaving.handling l <= Z.of_nat (length l).
Proof.
  induction l as [|ph l IH]; [cbn; lia|].
  destruct ph; cbn [Interleaving.handling length]; lia.
Qed.

Lemma within_limit_bounds j l :
  0 <= within_limit j l <= Interleaving.handling l.
Proof.
  induction l as [|ph l IH]; [cbn; lia|].
  destruct ph as [|n|]; cbn [within_limit Interleaving.handling]; try lia.
  destruct (n <=? j); lia.
Qed.

Lemma within_limit_enter j l i n :
  l !! i = Some Interleaving.Arriving ->
  within_limit j (<[i := Interleaving.Handling n]> l)
  = within_limit j l + (if n <=? j then 1 else 0).
Proof.
  revert i. induction l as [|ph l IH]; intros [|i] H; try discriminate.
  - cbn in H. injection H as ->.
    change (<[0%nat := Interleaving.Handling n]> (Interleaving.Arriving :: l))
      with (Interleaving.Handling n :: l).
    cbn [within_limit]. lia.
  - change (<[S i := Interleaving.Handling n]> (ph :: l))
      with (ph :: <[i := Interleaving.Handling n]> l).
    cbn in H. specialize (IH i H).
    destruct ph; cbn [within_limit]; lia.
Qed.

Lemma within_limit_leave j l i n :
  l !! i = Some (Interleaving.Handling n) ->
  within_limit j (<[i := Interleaving.Finished]> l)
  = within_limit j l - (if n <=? j then 1 else 0).
Proof.
  revert i. induction l as [|ph l IH]; intros [|i] H; try discriminate.
  - cbn in H. injection H as ->.
    change (<[0%nat := Interleaving.Finished]> (Interleaving.Handling n :: l))
      with (Interleaving.Finished :: l).
    cbn [within_limit]. lia.
  - change (<[S i := Interleaving.Finished]> (ph :: l))
      with (ph :: <[i := Interleaving.Finished]> l).
    cbn in H. specialize (IH i H).
    destruct ph; cbn [within_limit]; lia.
Qed.

Lemma step_keeps_bounded k hard i p :
  Z.of_nat k < Int64.max_int ->
  bounded_pool k hard p -> bounded_pool k hard (Interleaving.step i p).
Proof.
  intros Hk (Hlen & Hc & Hh & Hb). unfold Interleaving.step.
  pose proof (handling_bounds (Interleaving.pool_phases p)) as Hhb.
  destruct (Interleaving.pool_phases p !! i) as [[|n|]|] eqn:Hi;
    try (repeat split; assumption).
  - pose proof (handling_enter _ _ (Int64.add (inflight (Interleaving.pool_shedder p)) 1) Hi)
      as He.
    pose proof (handling_bounds
                  (<[i := Interleaving.Handling
                            (Int64.add (inflight (Interleaving.pool_shedder p)) 1)]>
                     (Interleaving.pool_phases p))) as Hhb'.
    rewrite length_insert, Hlen, He in Hhb'.
    assert (Hn : Int64.add (inflight (Interleaving.pool_shedder p)) 1
                 = Interleaving.handling (Interleaving.pool_phases p) + 1).
    { rewrite Hc. apply add_1_no_overflow.
      - unfold Int64.in_range, Int64.min_int, Int64.max_int in *. lia.
      - lia. }
    unfold increment, bounded_pool.
    cbn [Interleaving.pool_shedder Interleaving.pool_phases set_inflight
         inflight hardLimit].
    rewrite length_insert. split; [exact Hlen|]. split; [|split; [exact Hh|]].
    + rewrite He. exact Hn.
    + intros j Hj. rewrite (within_limit_enter _ _ _ _ Hi).
      pose proof (within_limit_bounds j (Interleaving.pool_phases p)) as Hwb.
      specialize (Hb j Hj).
      destruct (Z.leb_spec
                  (Int64.add (inflight (Interleaving.pool_shedder p)) 1) j); lia.
  - pose proof (handling_leave _ _ _ Hi) as He.
    pose proof (handling_bounds
                  (<[i := Interleaving.Finished]> (Interleaving.pool_phases p)))
      as Hhb'.
    rewrite length_insert, Hlen, He in Hhb'.
    unfold decrement, bounded_pool.
    cbn [Interleaving.pool_shedder Interleaving.pool_phases set_inflight
         inflight hardLimit].
    rewrite length_insert. split; [exact Hlen|]. split; [|split; [exact Hh|]].
    + rewrite He, Hc. unfold Int64.add. apply wrap64_in_range.
      unfold Int64.in_range, Int64.min_int, Int64.max_int in *. lia.
    + intros j Hj. rewrite (within_limit_leave _ _ _ _ Hi).
      specialize (Hb j Hj). destruct (n <=? j); lia.
Qed.

Lemma run_keeps_bounded k hard schedule :
  Z.of_nat k < Int64.max_int ->
  forall p, bounded_pool k hard p ->
            bounded_pool k hard (Interleaving.run schedule p).
Proof.
  intros Hk. induction schedule as [|i schedule IH]; intros p Hp; [exact Hp|].
  unfold Interleaving.run. cbn [foldl].
  apply IH, step_keeps_bounded; assumption.
Qed.

(** X16. The hard limit bounds what runs downstream at the same time.
    For requests that found the counter at zero, and in every
    interleaving of their increments and deferred decrements, the
    requests that are between increment and decrement and were not shed
    at the hard limit are at most [hardLimit] many; the counter is the
    number of requests between increment and decrement, shed ones
    included. *)
Theorem interleaved_gates_bound (s : Shedder) (k : nat) (schedule : list nat) :
  inflight s = 0 ->
  0 <= hardLimit s ->
  Z.of_nat k < Int64.max_int ->
  let p := Interleaving.run schedule
             (Interleaving.mkPool s (replicate k Interleaving.Arriving)) in
  within_limit (hardLimit s) (Interleaving.pool_phases p) <= hardLimit s /\
  Inflight (Interleaving.pool_shedder p)
  = Interleaving.handling (Interleaving.pool_phases p).
Proof.
  intros Hc Hh Hk p.
  assert (H0 : forall j, within_limit j (replicate k Interleaving.Arriving) = 0).
  { intros j. induction k as [|k' IH]; [reflexivity|].
    cbn [replicate within_limit]. apply IH. lia. }
  assert (Hh0 : Interleaving.handling (replicate k Interleaving.Arriving) = 0).
  { clear. induction k as [|k IH]; [reflexivity | exact IH]. }
  assert (Hp : bounded_pool k (hardLimit s) p).
  { apply run_keeps_bounded; [exact Hk|]. unfold bounded_pool.
    cbn [Interleaving.pool_shedder Interleaving.pool_phases].
    rewrite length_replicate, Hh0. repeat split; try assumption.
    intros j Hj. rewrite H0. exact Hj. }
  destruct Hp as (_ & Hcount & _ & Hb).
  split; [apply Hb, Hh | exact Hcount].
Qed.

Lemma interleaved_gates_bound_witness :
  within_limit 2
    (Interleaving.pool_phases
       (Interleaving.run [0; 1; 2; 0; 3]%nat
          (Interleaving.mkPool (mkShedder 2 0 0 None None)
             (replicate 4 Interleaving.Arriving)))) <= 2.
Proof.
  apply (interleaved_gates_bound (mkShedder 2 0 0 None None) 4 [0; 1; 2; 0; 3]%nat).
  - reflexivity.
  - vm_compute. discriminate.
  - vm_compute. reflexivity.
Defined.

Lemma within_limit_app j l1 l2 :
  within_limit j (l1 ++ l2) = within_limit j l1 + within_limit j l2.
Proof.
  induction l1 as [|ph l1 IH]; [reflexivity|].
  destruct ph; cbn [app within_limit]; lia.
Qed.

Lemma burst_S m :
  burst (S m) = burst m ++ [Interleaving.Handling (Z.of_nat m + 1)].
Proof. unfold burst. rewrite seq_S, map_app. reflexivity. Qed.

Lemma length_burst m : length (burst m) = m.
Proof. unfold burst. rewrite length_map. apply length_seq. Qed.

Lemma within_limit_burst j m :
  0 <= j -> within_limit j (burst m) = Z.min (Z.of_nat m) j.
Proof.
  intros Hj. induction m as [|m IH]; [cbn; lia|].
  rewrite burst_S, within_limit_app, IH. cbn [within_limit].
  destruct (Z.leb_spec (Z.of_nat m + 1) j); lia.
Qed.

Lemma run_burst s k m :
  inflight s = 0 ->
  Z.of_nat k < Int64.max_int ->
  (m <= k)%nat ->
  Interleaving.run (seq 0 m)
    (Interleaving.mkPool s (replicate k Interleaving.Arriving))
  = Interleaving.mkPool (set_inflight s (Z.of_nat m))
      (burst m ++ replicate (k - m) Interleaving.Arriving).
Proof.
  intros Hc Hk. induction m as [|m IH]; intros Hm.
  - cbn [seq Interleaving.run foldl burst map app]. rewrite Nat.sub_0_r.
    change (Z.of_nat 0) with 0. rewrite <- Hc, set_inflight_same. reflexivity.
  - rewrite seq_S. unfold Interleaving.run in *. rewrite foldl_snoc, IH by lia.
    cbn [Nat.add]. unfold Interleaving.step.
    cbn [Interleaving.pool_phases Interleaving.pool_shedder].
    replace (k - m)%nat with (S (k - S m)) by lia.
    cbn [replicate].
    rewrite list_lookup_middle by (symmetry; apply length_burst).
    unfold increment. cbn [set_inflight inflight hardLimit softLimit
                           shedDecider onShed].
    rewrite add_1_no_overflow.
    + f_equal.
      * f_equal. lia.
      * rewrite <- (length_burst m) at 1.
        rewrite <- (Nat.add_0_r (length (burst m))), insert_app_r.
        cbn [list_insert]. rewrite burst_S, <- app_assoc. reflexivity.
    + unfold Int64.in_range, Int64.min_int, Int64.max_int in *. lia.
    + lia.
Qed.

(** X17. A burst on an idle shedder: when [k] requests all enter the
    gate before any of them leaves, the request that enters as number
    [i] gets [i] from its increment, so the first [hardLimit] of them
    stay within the hard limit and the others, and only they, are over
    it; the counter is [k] until the first one leaves. *)
Theorem burst_sheds_the_excess (s : Shedder) (k : nat) :
  inflight s = 0 ->
  0 <= hardLimit s ->
  Z.of_nat k < Int64.max_int ->
  let p := Interleaving.run (seq 0 k)
             (Interleaving.mkPool s (replicate k Interleaving.Arriving)) in
  Interleaving.pool_phases p = burst k /\
  Inflight (Interleaving.pool_shedder p) = Z.of_nat k /\
  within_limit (hardLimit s) (Interleaving.pool_phases p)
  = Z.min (Z.of_nat k) (hardLimit s) /\
  (forall i r, (i < k)%nat ->
     Interleaving.pool_phases p !! i = Some (Interleaving.Handling (Z.of_nat i + 1)) /\
     (verdict s (Z.of_nat i + 1) r = Reject ShedReasonHardLimit
      <-> hardLimit s < Z.of_nat i + 1)).
Proof.
  intros Hc Hh Hk p. subst p. rewrite (run_burst s k k Hc Hk) by lia.
  cbn [Interleaving.pool_phases Interleaving.pool_shedder].
  rewrite Nat.sub_diag. cbn [replicate]. rewrite app_nil_r.
  split; [reflexivity|]. split; [reflexivity|].
  split; [apply within_limit_burst, Hh|].
  intros i r Hi. split.
  - unfold burst. rewrite list_lookup_fmap, lookup_seq_lt by exact Hi.
    reflexivity.
  - split.
    + unfold verdict. destruct (Z.gtb_spec (Z.of_nat i + 1) (hardLimit s)); [lia|].
      destruct (_ && _)%bool;
        [destruct (match shedDecider s with Some d => d r | None => false end)|];
        discriminate.
    + intros Hlt. apply verdict_hard. lia.
Qed.

Lemma burst_sheds_the_excess_witness :
  within_limit 2
    (Interleaving.pool_phases
       (Interleaving.run (seq 0 3)
          (Interleaving.mkPool (mkShedder 2 0 0 None None)
             (replicate 3 Interleaving.Arriving))))
  = Z.min (Z.of_nat 3) 2.
Proof.
  apply (burst_sheds_the_excess (mkShedder 2 0 0 None None) 3).
  - reflexivity.
  - vm_compute. discriminate.
  - vm_compute. reflexivity.
Defined.

(** ** The tests of the repository, replayed on the embedding *)

Example TestShedReason_String :
  ShedReason_String ShedReasonHardLimit = "hard_limit"%string /\
  ShedReason_String ShedReasonSoftLimit = "soft_limit"%string /\
  ShedReason_String 99 = "unknown"%string.
Proof. repeat split. Qed.

Example TestNew_PanicsOnInvalidHardLimit :
  New (Examples.config 0 0 None None None) = Panic "shedder: HardLimit must be > 0" /\
  New (Examples.config (-1) 0 None None None) = Panic "shedder: HardLimit must be > 0".
Proof. split; reflexivity. Qed.

Example TestShedder_IncrementDecrement :
  let s0 := Examples.built (Examples.config 100 0 None None None) in
  let '(s1, v1) := increment s0 in
  let '(s2, v2) := increment s1 in
  v1 = 1 /\ Inflight s1 = 1 /\ v2 = 2 /\
  Inflight (decrement s2) = 1 /\ Inflight (decrement (decrement s2)) = 0.
Proof. vm_compute. repeat split. Qed.

Example TestShedder_IsSoftOverloaded :
  let s := Examples.built (Examples.config 10 5 None None None) in
  IsSoftOverloaded (set_inflight s 5) = false /\
  IsSoftOverloaded (set_inflight s 6) = true /\
  IsSoftOverloaded (set_inflight s 10) = true /\
  IsSoftOverloaded (set_inflight s 11) = false.
Proof. vm_compute. repeat split. Qed.

Example TestReadyHandler_ReturnsInflightInfo :
  Body (st_writer (fst (ReadyHandler Examples.plain
    (Examples.arrival (Examples.built (Examples.config 100 0 None None None)) 2))))
  = "ready: inflight=2, hardLimit=100"%string.
Proof. vm_compute. reflexivity. Qed.

Example TestMiddleware_Rejects503WhenOverHardLimit :
  let out := Middleware Examples.ok_handler Examples.plain
               (Examples.arrival (Examples.built (Examples.config 1 0 None None None)) 1) in
  Code (st_writer (fst out)) = 503 /\
  HeaderOps.Get (sentHeader (st_writer (fst out))) "X-Shed-Reason" = "hard_limit"%string /\
  HeaderOps.Get (sentHeader (st_writer (fst out))) "Retry-After" = "1"%string /\
  served (st_trace (fst out)) = [].
Proof. vm_compute. repeat split. Qed.

Example TestMiddleware_DecrementOnPanic :
  let out := Middleware Examples.panicking_handler Examples.plain
               (Examples.arrival (Examples.built (Examples.config 10 0 None None None)) 0) in
  snd out = Panic "test panic" /\ Inflight (st_shedder (fst out)) = 0.
Proof. vm_compute. split; reflexivity. Qed.

Example TestMiddleware_SoftLimitNoDecider :
  let out := Middleware Examples.ok_handler Examples.plain
               (Examples.arrival (Examples.built (Examples.config 10 1 None None None)) 1) in
  Code (st_writer (fst out)) = 200 /\ served (st_trace (fst out)) = [Examples.plain].
Proof. vm_compute. split; reflexivity. Qed.

(** The largest 64-bit count: the increment wraps around and the
    deferred decrement brings the counter back. *)
Example inflight_wraps_and_returns :
  let out := Middleware Examples.ok_handler Examples.plain
               (Examples.arrival (Examples.built (Examples.config 10 0 None None None))
                  Int64.max_int) in
  admission_count
    (Examples.arrival (Examples.built (Examples.config 10 0 None None None))
       Int64.max_int) = Int64.min_int /\
  Inflight (st_shedder (fst out)) = Int64.max_int.
Proof. vm_compute. split; reflexivity. Qed.
